(** * proxy_app.py: provider dispatch, format translation and the Gemini
      rate limiter, as a shallow embedding.

    The Flask handler [proxy_handler] and its helpers are translated
    statement by statement.  JSON values are an inductive type whose
    objects are finite maps; Python exceptions are an explicit error
    type; the module-level global [last_gemini_request_time], the
    monotonic clock and the log of outbound HTTP calls form the state
    that every handler threads through.  The [print] statements are
    left out: they change neither the state nor a result.  The
    behaviour of [flask], [werkzeug] and [requests] is taken from their
    documentation. *)

From Stdlib Require Import QArith Lqa Ascii String.
From stdpp Require Import gmap strings list fin_maps pretty.

Local Open Scope string_scope.
Local Open Scope list_scope.

(** ** JSON values (what [request.get_json()] and [response.json()] yield)

    [JNull] is Python's [None], [JInt] an [int], [JFloat] a [float]
    (as an exact rational), [JStr] a [str], [JList] a [list] and
    [JObj] a [dict] with string keys. *)

#[local] Unset Elimination Schemes.
Inductive json :=
| JNull
| JBool (b : bool)
| JInt (z : Z)
| JFloat (q : Q)
| JStr (s : string)
| JList (l : list json)
| JObj (m : gmap string json).
#[local] Set Elimination Schemes.

(** What a JSON decoder makes of a text: the value it denotes, or the
    decoder's complaint. *)
Inductive decoding :=
| Decodes (v : json)
| Undecodable (why : string).

(** ** Exceptions *)

Inductive exn :=
| ValueError (msg : string)
| IndexError (msg : string)
| KeyError (msg : string)
| AttributeError (msg : string)
| TypeError (msg : string)
| HTTPError (status : Z) (text : string) (body : decoding)
| JSONDecodeError (msg : string)
| RequestException (msg : string)
| HTTPException (code : Z) (msg : string).

(** [str(e)], as used by the catch-all clause of [proxy_handler]. *)
Definition str_exn (e : exn) : string :=
  match e with
  | ValueError msg | IndexError msg | KeyError msg | AttributeError msg
  | TypeError msg | JSONDecodeError msg | RequestException msg => msg
  | HTTPError _ text _ => text
  | HTTPException _ msg => msg
  end.

Inductive result (A : Type) :=
| Ok (a : A)
| Raise (e : exn).
Arguments Ok {A} a.
Arguments Raise {A} e.

Definition rbind {A B} (r : result A) (k : A -> result B) : result B :=
  match r with
  | Ok a => k a
  | Raise e => Raise e
  end.

Declare Scope result_scope.
Delimit Scope result_scope with result.
Notation "x <~ r ; k" := (rbind r (fun x => k))
  (at level 100, r at next level, right associativity) : result_scope.

Fixpoint mapM {A B} (f : A -> result B) (l : list A) : result (list B) :=
  match l with
  | [] => Ok []
  | a :: l' =>
      match f a with
      | Raise e => Raise e
      | Ok b =>
          match mapM f l' with
          | Raise e => Raise e
          | Ok bs => Ok (b :: bs)
          end
      end
  end.

(** ** The Python operations the source applies to JSON values *)

Module Py.

Definition type_name (v : json) : string :=
  match v with
  | JNull => "NoneType"
  | JBool _ => "bool"
  | JInt _ => "int"
  | JFloat _ => "float"
  | JStr _ => "str"
  | JList _ => "list"
  | JObj _ => "dict"
  end.

Definition no_attribute (v : json) (attr : string) : exn :=
  AttributeError ("'" +:+ type_name v +:+ "' object has no attribute '" +:+ attr +:+ "'").

(** Truthiness, as tested by [if not client_data]. *)
Definition truthy (v : json) : bool :=
  match v with
  | JNull => false
  | JBool b => b
  | JInt z => negb (z =? 0)%Z
  | JFloat q => negb (Qeq_bool q 0)
  | JStr s => negb (String.eqb s "")
  | JList l => match l with [] => false | _ => true end
  | JObj m => negb (bool_decide (m = ∅))
  end.

(** [v.get(k, dflt)]: only a dict has [get]. *)
Definition get (v : json) (k : string) (dflt : json) : result json :=
  match v with
  | JObj m => Ok (default dflt (m !! k))
  | _ => Raise (no_attribute v "get")
  end.

(** [v[0]]. A dict decoded from JSON has string keys only, so the key
    [0] is never present. *)
Definition item0 (v : json) : result json :=
  match v with
  | JList (x :: _) => Ok x
  | JList [] => Raise (IndexError "list index out of range")
  | JStr (String c _) => Ok (JStr (String c ""))
  | JStr "" => Raise (IndexError "string index out of range")
  | JObj _ => Raise (KeyError "0")
  | _ => Raise (TypeError ("'" +:+ type_name v +:+ "' object is not subscriptable"))
  end.

Fixpoint chars (s : string) : list json :=
  match s with
  | "" => []
  | String c s' => JStr (String c "") :: chars s'
  end.

(** [for x in v]: the elements of a list, the keys of a dict, the
    characters of a str. *)
Definition iter (v : json) : result (list json) :=
  match v with
  | JList l => Ok l
  | JObj m => Ok (JStr <$> (map_to_list m).*1)
  | JStr s => Ok (chars s)
  | _ => Raise (TypeError ("'" +:+ type_name v +:+ "' object is not iterable"))
  end.

(** [v.pop(k, dflt)] returns the popped value and the dict as it is
    after the call (the dict is mutated in place). *)
Definition pop (v : json) (k : string) (dflt : json) : result (json * json) :=
  match v with
  | JObj m => Ok (default dflt (m !! k), JObj (delete k m))
  | JList _ => Raise (TypeError "pop expected at most 1 argument, got 2")
  | _ => Raise (no_attribute v "pop")
  end.

End Py.

(** ** Format translator *)

Local Open Scope result_scope.

(** One iteration of the loop body of [transform_to_openai_format]. *)
Definition openai_message (message : json) : result json :=
  r <~ Py.get message "role" JNull;
  let role := match r with JStr "model" => "assistant" | _ => "user" end in
  parts <~ Py.get message "parts" (JList [JObj ∅]);
  part <~ Py.item0 parts;
  text <~ Py.get part "text" (JStr "");
  Ok (JObj {[ "role" := JStr role; "content" := text ]}).

Definition transform_to_openai_format (client_data : json) : result (list json) :=
  contents <~ Py.get client_data "contents" (JList []);
  turns <~ Py.iter contents;
  mapM openai_message turns.

Definition transform_to_gemini_format (openai_response_json : json) : result json :=
  choices <~ Py.get openai_response_json "choices" (JList [JObj ∅]);
  choice <~ Py.item0 choices;
  message <~ Py.get choice "message" (JObj ∅);
  generated_text <~ Py.get message "content" (JStr "");
  choices' <~ Py.get openai_response_json "choices" (JList [JObj ∅]);
  choice' <~ Py.item0 choices';
  finish <~ Py.get choice' "finish_reason" (JStr "STOP");
  Ok (JObj {[ "candidates" := JList [JObj {[
         "content" := JObj {[ "role" := JStr "model";
                              "parts" := JList [JObj {[ "text" := generated_text ]}] ]};
         "finishReason" := finish ]}] ]}).

(** ** Strings: [str.lower] and [str.replace]

    A [str] is modelled as its sequence of 8-bit characters.  On a text
    of ASCII characters [str.lower] lowers the letters A to Z and
    leaves the rest; on any other text it goes by the Unicode case
    tables of the Python runtime, which are not part of the repository
    and are taken from the environment (see [unicode_lower] below). *)

Definition lower_char (c : ascii) : ascii :=
  let n := nat_of_ascii c in
  if (65 <=? n)%nat && (n <=? 90)%nat then ascii_of_nat (n + 32) else c.

Fixpoint ascii_lower (s : string) : string :=
  match s with
  | "" => ""
  | String c s' => String (lower_char c) (ascii_lower s')
  end.

Fixpoint is_ascii (s : string) : bool :=
  match s with
  | "" => true
  | String c s' => (nat_of_ascii c <? 128)%nat && is_ascii s'
  end.

(** [s.replace(old, new)] for a non-empty [old]: occurrences are found
    left to right and do not overlap.  [skip] counts the characters of
    the current occurrence that are still to be dropped. *)
Fixpoint replace_from (old new : string) (skip : nat) (s : string) : string :=
  match s with
  | "" => ""
  | String c s' =>
      match skip with
      | S n => replace_from old new n s'
      | O =>
          if String.prefix old s
          then new +:+ replace_from old new (String.length old - 1) s'
          else String c (replace_from old new 0 s')
      end
  end.

Definition replace (old new s : string) : string := replace_from old new 0 s.

(** ** f-strings

    An f-string is kept as its literal pieces and interpolated values.
    [render] gives the resulting text for the values whose [format] is
    modelled ([str], [None], [bool], [int]). *)

Inductive fpart :=
| FText (s : string)
| FValue (v : json).

Definition format_value (v : json) : option string :=
  match v with
  | JStr s => Some s
  | JNull => Some "None"
  | JBool true => Some "True"
  | JBool false => Some "False"
  | JInt z => Some (pretty z)
  | _ => None
  end.

Fixpoint render (f : list fpart) : option string :=
  match f with
  | [] => Some ""
  | FText s :: f' => (fun r => s +:+ r) <$> render f'
  | FValue v :: f' =>
      match format_value v, render f' with
      | Some s, Some r => Some (s +:+ r)
      | _, _ => None
      end
  end.

(** ** The world outside the handler *)

(** An outbound [requests.post(url, json=..., headers=..., timeout=...)]. *)
Record post_call := {
  post_url : list fpart;
  post_json : json;
  post_headers : gmap string string;
  post_timeout : Z;
}.

(** What [requests.post] comes back with: a response object (status
    code, raw text, and what [response.json()] makes of the text), or a
    transport failure (connection error, timeout). *)
Record response := {
  status_code : Z;
  text : string;
  decoded : decoding;
}.

Inductive upstream :=
| Replied (r : response)
| Unreachable (msg : string).

(** The inbound request, as [request.get_json()] sees it: a JSON
    content type and a text that decodes to [v]; a JSON content type
    and a text (possibly empty) that does not decode; or a content type
    that is not JSON. *)
Inductive inbound_body :=
| BodyJson (v : json)
| BodyUndecodable (why : string)
| BodyNotJsonMimetype.

(** [headers] maps a header name, in its canonical spelling, to its
    value ([request.headers] ignores the case of names). *)
Record request := {
  body : inbound_body;
  headers : gmap string string;
}.

(** The process state: the monotonic clock, the module global
    [last_gemini_request_time], and the outbound calls made so far, each
    with the clock reading at which it was dispatched. *)
Record world := {
  clock : Q;
  last_gemini_request_time : Q;
  outbound : list (Q * post_call);
}.

(** What the environment decides during one request: the process
    environment variables ([os.getenv]); how long each step takes
    ([arrival]: until the handler holds the lock and runs; [oversleep]:
    what [time.sleep] takes beyond the time asked for; [dispatch_lag]:
    from the limiter check to the moment the call goes out; [latency]:
    the round trip of [requests.post]; [record_lag]: from the reply to
    the reading of the clock that is recorded); what the upstream
    answers to a call; and what [str.lower] of the Python runtime makes
    of a text that is not all ASCII ([unicode_lower]). *)
Record oracle := {
  getenv : string -> option string;
  arrival : Q;
  oversleep : Q;
  dispatch_lag : Q;
  latency : Q;
  record_lag : Q;
  answer : post_call -> upstream;
  unicode_lower : string -> string;
}.

(** [s.lower()] *)
Definition lower (o : oracle) (s : string) : string :=
  if is_ascii s then ascii_lower s else unicode_lower o s.

Definition py_lower (o : oracle) (v : json) : result string :=
  match v with
  | JStr s => Ok (lower o s)
  | _ => Raise (Py.no_attribute v "lower")
  end.

(** No step takes a negative amount of time. *)
Definition oracle_ok (o : oracle) : Prop :=
  (0 <= arrival o /\ 0 <= oversleep o /\ 0 <= dispatch_lag o /\
   0 <= latency o /\ 0 <= record_lag o)%Q.

(** ** The handler monad: state and exceptions *)

Definition M (A : Type) : Type := world -> result A * world.

Definition ret {A} (a : A) : M A := fun w => (Ok a, w).

Definition raise {A} (e : exn) : M A := fun w => (Raise e, w).

Definition lift {A} (r : result A) : M A := fun w => (r, w).

Definition bind {A B} (m : M A) (k : A -> M B) : M B :=
  fun w =>
    match m w with
    | (Ok a, w') => k a w'
    | (Raise e, w') => (Raise e, w')
    end.

Declare Scope handler_scope.
Delimit Scope handler_scope with handler.
Notation "x <- m ;; k" := (bind m (fun x => k))
  (at level 100, m at next level, right associativity) : handler_scope.
Notation "m ;;; k" := (bind m (fun _ => k))
  (at level 100, right associativity) : handler_scope.

Definition elapse (d : Q) : M unit :=
  fun w => (Ok tt, {| clock := clock w + d;
                      last_gemini_request_time := last_gemini_request_time w;
                      outbound := outbound w |}).

(** [time.monotonic()] *)
Definition monotonic : M Q := fun w => (Ok (clock w), w).

(** [time.sleep(d)] suspends for at least [d]. *)
Definition sleep (o : oracle) (d : Q) : M unit := elapse (d + oversleep o).

Definition read_last : M Q := fun w => (Ok (last_gemini_request_time w), w).

Definition write_last (t : Q) : M unit :=
  fun w => (Ok tt, {| clock := clock w;
                      last_gemini_request_time := t;
                      outbound := outbound w |}).

Definition dispatched (c : post_call) : M unit :=
  fun w => (Ok tt, {| clock := clock w;
                      last_gemini_request_time := last_gemini_request_time w;
                      outbound := outbound w ++ [(clock w, c)] |}).

(** [requests.post]: the call goes out now, and the reply (or the
    transport failure) is there [latency] later. *)
Definition requests_post (o : oracle) (c : post_call) : M response :=
  (dispatched c ;;;
   elapse (latency o) ;;;
   match answer o c with
   | Replied r => ret r
   | Unreachable msg => raise (RequestException msg)
   end)%handler.

(** [response.raise_for_status()] raises for 4xx and 5xx codes. *)
Definition raise_for_status (r : response) : result unit :=
  if (400 <=? status_code r)%Z && (status_code r <? 600)%Z
  then Raise (HTTPError (status_code r) (text r) (decoded r))
  else Ok tt.

(** [response.json()] *)
Definition response_json (r : response) : result json :=
  match decoded r with
  | Decodes v => Ok v
  | Undecodable why => Raise (JSONDecodeError why)
  end.

(** ** Provider clients *)

Local Open Scope handler_scope.

Definition str_truthy (s : string) : bool := negb (String.eqb s "").

(** [api_key = user_api_key if user_api_key else os.getenv(env_key)],
    followed by the test [if not api_key]: [None] stands for a key that
    is missing (absent or empty). *)
Definition resolve_api_key (user_api_key : string) (from_env : option string) : option string :=
  let api_key := if str_truthy user_api_key then Some user_api_key else from_env in
  match api_key with
  | Some k => if str_truthy k then Some k else None
  | None => None
  end.

Definition openai_payload (client_data : json) (openai_messages : list json) : result json :=
  model <~ Py.get client_data "modelName" (JStr "default-model");
  gc <~ Py.get client_data "generationConfig" (JObj ∅);
  temperature <~ Py.get gc "temperature" (JFloat 0.7);
  gc' <~ Py.get client_data "generationConfig" (JObj ∅);
  max_tokens <~ Py.get gc' "maxOutputTokens" (JInt 4096);
  Ok (JObj {[ "model" := model;
              "messages" := JList openai_messages;
              "temperature" := temperature;
              "max_tokens" := max_tokens ]})%result.

(** The dict display [{"HTTP-Authorization": ..., "Content-Type": ...,
    **extra_headers}]: later entries win. *)
Definition openai_headers (api_key : string) (extra_headers : gmap string string)
  : gmap string string :=
  extra_headers ∪ {[ "HTTP-Authorization" := "Bearer " +:+ api_key;
                     "Content-Type" := "application/json" ]}.

Definition handle_openai_compatible (o : oracle) (client_data : json) (user_api_key : string)
    (provider_name base_url env_key : string) (extra_headers : gmap string string) : M json :=
  match resolve_api_key user_api_key (getenv o env_key) with
  | None =>
      raise (ValueError (provider_name +:+
        " API key is missing. Not found in client request or on server (env var: " +:+
        env_key +:+ ")."))
  | Some api_key =>
      let api_url := [FValue (JStr base_url); FText "/chat/completions"] in
      openai_messages <- lift (transform_to_openai_format client_data) ;;
      payload <- lift (openai_payload client_data openai_messages) ;;
      let headers := openai_headers api_key extra_headers in
      elapse (dispatch_lag o) ;;;
      response <- requests_post o {| post_url := api_url; post_json := payload;
                                     post_headers := headers; post_timeout := 60 |} ;;
      lift (raise_for_status response) ;;;
      j <- lift (response_json response) ;;
      lift (transform_to_gemini_format j)
  end.

Definition GEMINI_REQUEST_DELAY : Q := 11.

Definition handle_gemini_request (o : oracle) (client_data : json) (user_api_key : string)
  : M json :=
  now <- monotonic ;;
  last <- read_last ;;
  let elapsed_time := (now - last)%Q in
  (if Qlt_le_dec elapsed_time GEMINI_REQUEST_DELAY
   then sleep o (GEMINI_REQUEST_DELAY - elapsed_time)
   else ret tt) ;;;
  match resolve_api_key user_api_key (getenv o "GEMINI_API_KEY") with
  | None =>
      raise (ValueError "Gemini API key is missing. Not found in client request or on server.")
  | Some api_key =>
      popped <- lift (Py.pop client_data "modelName" (JStr "gemini-1.5-flash-latest")) ;;
      let '(model_name, client_data) := popped in
      let api_url :=
        [FText "https://generativelanguage.googleapis.com/v1beta/models/";
         FValue model_name;
         FText ":generateContent?key=";
         FValue (JStr api_key)] in
      elapse (dispatch_lag o) ;;;
      response <- requests_post o {| post_url := api_url; post_json := client_data;
                                     post_headers := ∅; post_timeout := 45 |} ;;
      lift (raise_for_status response) ;;;
      elapse (record_lag o) ;;;
      t <- monotonic ;;
      write_last t ;;;
      lift (response_json response)
  end.

(** ** Dispatcher *)

(** [request.get_json()] (Werkzeug 2.1 and later): a body that does not
    decode raises [BadRequest]; without a JSON content type decoding is
    not attempted and [UnsupportedMediaType] is raised. *)
Definition get_json (req : request) : result json :=
  match body req with
  | BodyJson v => Ok v
  | BodyUndecodable why =>
      Raise (HTTPException 400 ("400 Bad Request: Failed to decode JSON object: " +:+ why))
  | BodyNotJsonMimetype =>
      Raise (HTTPException 415 ("415 Unsupported Media Type: Did not attempt to load JSON data because the request Content-Type was not 'application/json'."))
  end.

Definition error_body (message : string) : json :=
  JObj {[ "error" := JObj {[ "message" := JStr message ]} ]}.

(** The [if]/[elif] chain on the normalized provider name.  The value
    is the Flask return value, a JSON body with a status code
    ([jsonify(x)] alone is status 200). *)
Definition select_provider (o : oracle) (provider : string) (client_data : json)
    (user_api_key : string) : M (json * Z) :=
  if String.eqb provider "llmost" then
    response_data <- handle_openai_compatible o client_data user_api_key
                       "LLMost" "https://llmost.ru/api/v1" "LLMOST_API_KEY" ∅ ;;
    ret (response_data, 200%Z)
  else if String.eqb provider "openrouter" then
    response_data <- handle_openai_compatible o client_data user_api_key
                       "OpenRouter" "https://openrouter.ai/api/v1" "OPENROUTER_API_KEY"
                       {[ "HTTP-Referer" := "https://github.com/MrKins/Chronicles-of-Meterea";
                          "X-Title" := "Chronicles of Meterea" ]} ;;
    ret (response_data, 200%Z)
  else if String.eqb provider "gemini" then
    response_data <- handle_gemini_request o client_data user_api_key ;;
    ret (response_data, 200%Z)
  else
    ret (error_body ("Unsupported provider: " +:+ provider), 400%Z).

(** The caller-supplied key:
    [request.headers.get('Authorization', '').replace('Bearer ', '')]. *)
Definition caller_key (req : request) : string :=
  replace "Bearer " "" (default "" (headers req !! "Authorization")).

(** The body of the [try] block. *)
Definition route (o : oracle) (req : request) : M (json * Z) :=
  client_data <- lift (get_json req) ;;
  if negb (Py.truthy client_data)
  then ret (error_body "Invalid JSON body", 400%Z)
  else
    popped <- lift (Py.pop client_data "provider" (JStr "gemini")) ;;
    let '(p, client_data) := popped in
    provider <- lift (py_lower o p) ;;
    let user_api_key := caller_key req in
    select_provider o provider client_data user_api_key.

(** The [except] clauses. *)
Definition on_exception (e : exn) : json * Z :=
  match e with
  | HTTPError status text body =>
      match body with
      | Decodes v => (v, status)
      | Undecodable _ => (error_body text, status)
      end
  | _ => (error_body ("Proxy internal error: " +:+ str_exn e), 500%Z)
  end.

(** [proxy_handler], run under [api_lock]: one request is handled from
    start to end before the next one starts.  [arrival] is the time
    that passes before the handler gets to run. *)
Definition proxy_handler (o : oracle) (req : request) (w : world) : (json * Z) * world :=
  match (elapse (arrival o) ;;; route o req) w with
  | (Ok r, w') => (r, w')
  | (Raise e, w') => (on_exception e, w')
  end.

(** * Vocabulary of the properties *)

(** ** Format translator *)

(** What the translation of one turn is meant to be: role [model]
    becomes [assistant], every other role [user]; the content is the
    text of the first part, or the empty string. *)
Definition turn_role (turn : gmap string json) : string :=
  match turn !! "role" with
  | Some (JStr "model") => "assistant"
  | _ => "user"
  end.

Definition turn_text (turn : gmap string json) : json :=
  match turn !! "parts" with
  | Some (JList (JObj part :: _)) => default (JStr "") (part !! "text")
  | _ => JStr ""
  end.

Definition translated (turn : json) : json :=
  match turn with
  | JObj t => JObj {[ "role" := JStr (turn_role t); "content" := turn_text t ]}
  | _ => JNull
  end.

(** A turn the loop body gets through: a dict whose [parts] is absent
    or a list starting with a dict. *)
Definition turn_ok (turn : json) : Prop :=
  exists t, turn = JObj t /\
    (t !! "parts" = None \/ exists part rest, t !! "parts" = Some (JList (JObj part :: rest))).

(** The canonical response: one candidate with a text and a finish
    reason. *)
Definition gemini_candidate (generated_text finish : json) : json :=
  JObj {[ "candidates" := JList [JObj {[
    "content" := JObj {[ "role" := JStr "model";
                         "parts" := JList [JObj {[ "text" := generated_text ]}] ]};
    "finishReason" := finish ]}] ]}.

(** ** Runs of the handlers *)

Ltac run_monad :=
  unfold requests_post, sleep;
  unfold bind, lift, ret, raise, elapse, monotonic, read_last, write_last, dispatched;
  cbn [clock last_gemini_request_time outbound fst snd].

(** The statuses for which [raise_for_status] raises. *)
Definition is_http_error (status : Z) : bool :=
  (400 <=? status)%Z && (status <? 600)%Z.

Definition upstream_fails (u : upstream) : Prop :=
  match u with
  | Unreachable _ => True
  | Replied r => is_http_error (status_code r) = true
  end.

(** The world when the handler gets to run. *)
Definition arrived (o : oracle) (w : world) : world :=
  {| clock := clock w + arrival o;
     last_gemini_request_time := last_gemini_request_time w;
     outbound := outbound w |}.

(** The world once the limiter check of [handle_gemini_request] is
    over: the clock has moved on if the handler slept. *)
Definition after_limiter (o : oracle) (w : world) : world :=
  if Qlt_le_dec (clock w - last_gemini_request_time w) GEMINI_REQUEST_DELAY
  then {| clock := clock w + (GEMINI_REQUEST_DELAY - (clock w - last_gemini_request_time w)
                              + oversleep o);
          last_gemini_request_time := last_gemini_request_time w;
          outbound := outbound w |}
  else w.

Definition GEMINI_MODELS_URL : string :=
  "https://generativelanguage.googleapis.com/v1beta/models/".

(** The call [handle_gemini_request] sends for the dict [m]. *)
Definition gemini_call (m : gmap string json) (api_key : string) : post_call :=
  {| post_url :=
       [FText GEMINI_MODELS_URL;
        FValue (default (JStr "gemini-1.5-flash-latest") (m !! "modelName"));
        FText ":generateContent?key=";
        FValue (JStr api_key)];
     post_json := JObj (delete "modelName" m);
     post_headers := ∅;
     post_timeout := 45 |}.

(** The call [handle_openai_compatible] sends for a payload. *)
Definition openai_call (base_url api_key : string) (extra_headers : gmap string string)
    (payload : json) : post_call :=
  {| post_url := [FValue (JStr base_url); FText "/chat/completions"];
     post_json := payload;
     post_headers := openai_headers api_key extra_headers;
     post_timeout := 60 |}.

(** The payload that goes out, when one can be built. *)
Definition openai_body (cd : json) : result json :=
  (msgs <~ transform_to_openai_format cd; openai_payload cd msgs)%result.

Definition chat_payload (m g : gmap string json) (msgs : list json) : json :=
  JObj {[ "model" := default (JStr "default-model") (m !! "modelName");
          "messages" := JList msgs;
          "temperature" := default (JFloat 0.7) (g !! "temperature");
          "max_tokens" := default (JInt 4096) (g !! "maxOutputTokens") ]}.

(** ** Routing *)

(** A request whose body is a non-empty dict, with the provider name it
    normalizes to. *)
Definition routed (o : oracle) (req : request) (m : gmap string json) (provider : string)
  : Prop :=
  body req = BodyJson (JObj m) /\ m <> ∅ /\
  exists p, default (JStr "gemini") (m !! "provider") = JStr p /\ lower o p = provider.

Definition supported (provider : string) : Prop :=
  provider = "llmost" \/ provider = "openrouter" \/ provider = "gemini".

(** The static configuration of the two chat-completion providers, as
    the call sites in [proxy_handler] give it. *)
Record chat_provider := {
  cp_name : string;
  cp_base_url : string;
  cp_env_key : string;
  cp_extra_headers : gmap string string;
}.

Definition chat_provider_of (provider : string) : option chat_provider :=
  if String.eqb provider "llmost" then
    Some {| cp_name := "LLMost"; cp_base_url := "https://llmost.ru/api/v1";
            cp_env_key := "LLMOST_API_KEY"; cp_extra_headers := ∅ |}
  else if String.eqb provider "openrouter" then
    Some {| cp_name := "OpenRouter"; cp_base_url := "https://openrouter.ai/api/v1";
            cp_env_key := "OPENROUTER_API_KEY";
            cp_extra_headers :=
              {[ "HTTP-Referer" := "https://github.com/MrKins/Chronicles-of-Meterea";
                 "X-Title" := "Chronicles of Meterea" ]} |}
  else None.

Definition env_key_of (provider : string) : string :=
  match chat_provider_of provider with
  | Some cp => cp_env_key cp
  | None => "GEMINI_API_KEY"
  end.

(** ** API keys *)

(** The resolution order in words: the caller's key when there is one,
    otherwise the key of the provider's environment variable, when that
    is set and not empty. *)
Definition key_by_priority (caller : string) (from_env : option string) : option string :=
  match caller with
  | String _ _ => Some caller
  | "" =>
      match from_env with
      | Some (String c k) => Some (String c k)
      | _ => None
      end
  end.

(** Where a call carries its credential: the Gemini call in the [key]
    query parameter that ends its URL, a chat-completion call in the
    [HTTP-Authorization] header. *)
Definition carries_key (provider : string) (c : post_call) (k : string) : Prop :=
  if String.eqb provider "gemini"
  then exists model, post_url c = [FText GEMINI_MODELS_URL; FValue model;
                                   FText ":generateContent?key="; FValue (JStr k)]
  else post_headers c !! "HTTP-Authorization" = Some ("Bearer " +:+ k).

(** [stripped old s s']: [s'] is [s] with the occurrences of [old]
    taken out, the occurrences being found from the left and not
    overlapping. *)
Inductive stripped (old : string) : string -> string -> Prop :=
| stripped_end : stripped old "" ""
| stripped_here (s s' : string) :
    stripped old s s' -> stripped old (old +:+ s) s'
| stripped_keep (c : ascii) (s s' : string) :
    String.prefix old (String c s) = false ->
    stripped old s s' -> stripped old (String c s) (String c s').

(** Whether [old] occurs somewhere in [s]. *)
Fixpoint occurs_in (old s : string) : bool :=
  match s with
  | "" => String.prefix old ""
  | String _ s' => String.prefix old s || occurs_in old s'
  end.

(** ** Statements that do not hold of the code *)

(** Every two Gemini requests handled one after the other have their
    outbound calls at least [GEMINI_REQUEST_DELAY] apart, whatever
    became of the first call. *)
Definition back_to_back_spacing : Prop :=
  forall (o1 o2 : oracle) (req1 req2 : request) (m1 m2 : gmap string json) (w0 : world)
         (t1 t2 : Q) (c1 c2 : post_call),
    oracle_ok o1 -> oracle_ok o2 ->
    routed o1 req1 m1 "gemini" -> routed o2 req2 m2 "gemini" ->
    let w1 := snd (proxy_handler o1 req1 w0) in
    let w2 := snd (proxy_handler o2 req2 w1) in
    outbound w1 = outbound w0 ++ [(t1, c1)] ->
    outbound w2 = outbound w1 ++ [(t2, c2)] ->
    (t1 + GEMINI_REQUEST_DELAY <= t2)%Q.

(** The body that goes out to Gemini is the inbound body with only the
    [provider] field removed. *)
Definition gemini_body_less_provider_only : Prop :=
  forall (o : oracle) (req : request) (m : gmap string json) (w : world)
         (t : Q) (c : post_call),
    routed o req m "gemini" ->
    outbound (snd (proxy_handler o req w)) = outbound w ++ [(t, c)] ->
    post_json c = JObj (delete "provider" m).

(** The key a call carries is what follows the prefix "Bearer " in the
    caller's [Authorization] header. *)
Definition bearer_prefix_stripped : Prop :=
  forall (o : oracle) (req : request) (m : gmap string json) (provider : string) (w : world)
         (k : string) (t : Q) (c : post_call),
    routed o req m provider -> supported provider ->
    headers req !! "Authorization" = Some ("Bearer " +:+ k) ->
    k <> "" ->
    outbound (snd (proxy_handler o req w)) = outbound w ++ [(t, c)] ->
    carries_key provider c k.

(** Every call that comes back with a status outside 200..299 is
    answered with that status. *)
Definition non_2xx_status_passed_through : Prop :=
  forall (o : oracle) (req : request) (w : world) (t : Q) (c : post_call) (r : response),
    outbound (snd (proxy_handler o req w)) = outbound w ++ [(t, c)] ->
    answer o c = Replied r ->
    ~ (200 <= status_code r < 300)%Z ->
    snd (fst (proxy_handler o req w)) = status_code r.

(** ** Further vocabulary *)

(** An exception other than [requests.exceptions.HTTPError]: the
    catch-all clause of [proxy_handler] answers it with status 500. *)
Definition internal (e : exn) : Prop :=
  match e with
  | HTTPError _ _ _ => False
  | _ => True
  end.

(** The first choice of a chat-completions reply, as the lookups of
    [transform_to_gemini_format] find it: the empty dict when [choices]
    is absent, the head of [choices] when that is a list starting with
    a dict, and nothing the function gets through otherwise. *)
Definition first_choice (m : gmap string json) : option (gmap string json) :=
  match m !! "choices" with
  | None => Some ∅
  | Some (JList (JObj choice :: _)) => Some choice
  | _ => None
  end.

(** A message of the chat-completions format. *)
Definition chat_message (msg : json) : Prop :=
  exists role content,
    msg = JObj {[ "role" := JStr role; "content" := content ]} /\
    (role = "assistant" \/ role = "user").

(** Requests handled one after the other, each from start to end, as
    [api_lock] makes them. *)
Fixpoint serve_all (rs : list (oracle * request)) (w : world) : world :=
  match rs with
  | [] => w
  | (o, req) :: rs' => serve_all rs' (snd (proxy_handler o req w))
  end.

(** Instants that are at least [d] apart, one after the other. *)
Fixpoint spaced (d : Q) (ts : list Q) : Prop :=
  match ts with
  | t1 :: ts' =>
      match ts' with
      | t2 :: _ => (t1 + d <= t2)%Q /\ spaced d ts'
      | [] => True
      end
  | [] => True
  end.

(** Whether a call goes to the Gemini endpoint, and the instants at
    which the Gemini calls of a log went out. *)
Definition to_gemini (c : post_call) : bool :=
  match post_url c with
  | FText s :: _ => String.eqb s GEMINI_MODELS_URL
  | _ => false
  end.

Definition gemini_times (sent : list (Q * post_call)) : list Q :=
  map fst (filter (fun tc => to_gemini (snd tc) = true) sent).

(** An upstream that answers whatever call with a status that is not
    an HTTP error. *)
Definition answers_ok (o : oracle) : Prop :=
  forall c, exists r, answer o c = Replied r /\ is_http_error (status_code r) = false.

(** ** Sample requests and environments *)

Module Sample.

(** No keys in the environment, no upstream to reach.  The texts of
    the samples are all ASCII, so [unicode_lower] is never consulted. *)
Definition quiet_oracle : oracle :=
  {| getenv := fun _ => None;
     arrival := 0; oversleep := 0; dispatch_lag := 0; latency := 1; record_lag := 0;
     answer := fun _ => Unreachable "connection refused";
     unicode_lower := ascii_lower |}.

Definition env_with_keys (name : string) : option string :=
  if String.eqb name "GEMINI_API_KEY" then Some "server-gemini-key"
  else if String.eqb name "OPENROUTER_API_KEY" then Some "server-openrouter-key"
  else None.

(** An upstream that answers every call, after one second, with the
    given status and body. *)
Definition answering (status : Z) (txt : string) (d : decoding) : oracle :=
  {| getenv := env_with_keys;
     arrival := 0; oversleep := 0; dispatch_lag := 0; latency := 1; record_lag := 0;
     answer := fun _ => Replied {| status_code := status; text := txt; decoded := d |};
     unicode_lower := ascii_lower |}.

Definition start_world : world :=
  {| clock := 100; last_gemini_request_time := 0; outbound := [] |}.

(** A request with a JSON body and no [Authorization] header. *)
Definition posted (v : json) : request :=
  {| body := BodyJson v; headers := ∅ |}.

Definition hi_turns : json :=
  JList [JObj {[ "role" := JStr "user"; "parts" := JList [JObj {[ "text" := JStr "hi" ]}] ]}].

Definition hi_body : gmap string json := {[ "contents" := hi_turns ]}.

Definition pro_body : gmap string json :=
  {[ "provider" := JStr "gemini"; "modelName" := JStr "gemini-pro";
     "contents" := hi_turns ]}.

Definition llmost_body : gmap string json :=
  {[ "provider" := JStr "LLMost"; "contents" := hi_turns ]}.

Definition openrouter_body : gmap string json :=
  {[ "provider" := JStr "openrouter"; "contents" := hi_turns; "modelName" := JStr "x" ]}.

Definition openrouter_request : request :=
  {| body := BodyJson (JObj openrouter_body);
     headers := {[ "Authorization" := "Bearer abc" ]} |}.

(** A Gemini request whose key contains the text "Bearer ". *)
Definition twice_bearer_request : request :=
  {| body := BodyJson (JObj hi_body);
     headers := {[ "Authorization" := "Bearer abcBearer def" ]} |}.

Definition openrouter_config : chat_provider :=
  {| cp_name := "OpenRouter"; cp_base_url := "https://openrouter.ai/api/v1";
     cp_env_key := "OPENROUTER_API_KEY";
     cp_extra_headers :=
       {[ "HTTP-Referer" := "https://github.com/MrKins/Chronicles-of-Meterea";
          "X-Title" := "Chronicles of Meterea" ]} |}.

End Sample.

Import Sample.

(** * Properties *)

(** ** Format translator *)

Lemma openai_message_ok (turn : json) :
  turn_ok turn -> openai_message turn = Ok (translated turn).
Proof.
  intros (t & -> & Hparts). unfold openai_message, translated, turn_role, turn_text.
  cbn [Py.get rbind].
  assert (Hrole : match default JNull (t !! "role") with
                  | JStr "model" => "assistant" | _ => "user" end
                  = match t !! "role" with
                    | Some (JStr "model") => "assistant" | _ => "user" end)
    by (destruct (t !! "role"); reflexivity).
  rewrite Hrole.
  destruct Hparts as [Hnone | (part & rest & Hsome)].
  - rewrite Hnone. cbn [default Py.item0 Py.get rbind]. rewrite lookup_empty.
    reflexivity.
  - rewrite Hsome. cbn [default Py.item0 Py.get rbind]. reflexivity.
Qed.

Lemma mapM_ok {A B} (f : A -> result B) (g : A -> B) (l : list A) :
  Forall (fun a => f a = Ok (g a)) l -> mapM f l = Ok (map g l).
Proof.
  induction 1 as [| a l Ha _ IH]; cbn [mapM map]; [reflexivity |].
  rewrite Ha, IH. reflexivity.
Qed.

(** On a request whose turns are all of that shape the translation is
    the turn-by-turn map, in order. *)
Lemma transform_to_openai_format_turns (m : gmap string json) (turns : list json) :
  m !! "contents" = Some (JList turns) ->
  Forall turn_ok turns ->
  transform_to_openai_format (JObj m) = Ok (map translated turns).
Proof.
  intros Hc Hturns. unfold transform_to_openai_format.
  cbn [Py.get rbind]. rewrite Hc. cbn [default Py.iter rbind].
  apply mapM_ok. eapply Forall_impl; [exact Hturns |].
  intros turn Hturn. by apply openai_message_ok.
Qed.

Lemma transform_to_openai_format_no_contents (m : gmap string json) :
  m !! "contents" = None -> transform_to_openai_format (JObj m) = Ok [].
Proof.
  intros Hc. unfold transform_to_openai_format. cbn [Py.get rbind].
  rewrite Hc. reflexivity.
Qed.

(** C3.  [transform_to_openai_format] is specified never to fail and to
    give content "" for a turn without parts; on a turn whose [parts] is
    the empty list the subscript [[0]] raises [IndexError]. *)
Theorem transform_to_openai_format_empty_parts_raises :
  transform_to_openai_format
    (JObj {[ "contents" := JList [JObj {[ "role" := JStr "user"; "parts" := JList [] ]}] ]})
  = Raise (IndexError "list index out of range").
Proof. vm_compute. reflexivity. Qed.

Lemma transform_to_gemini_format_no_choices (m : gmap string json) :
  m !! "choices" = None ->
  transform_to_gemini_format (JObj m) = Ok (gemini_candidate (JStr "") (JStr "STOP")).
Proof.
  intros Hc. unfold transform_to_gemini_format. cbn [Py.get rbind].
  rewrite Hc. cbn [default Py.item0 Py.get rbind]. rewrite !lookup_empty.
  reflexivity.
Qed.

Lemma transform_to_gemini_format_first_choice
    (m choice : gmap string json) (rest : list json) (message : gmap string json) :
  m !! "choices" = Some (JList (JObj choice :: rest)) ->
  default (JObj ∅) (choice !! "message") = JObj message ->
  transform_to_gemini_format (JObj m)
  = Ok (gemini_candidate (default (JStr "") (message !! "content"))
                         (default (JStr "STOP") (choice !! "finish_reason"))).
Proof.
  intros Hc Hm. unfold transform_to_gemini_format. cbn [Py.get rbind].
  rewrite Hc. change (default ?d (Some ?x)) with x.
  cbn [Py.item0 Py.get rbind]. rewrite Hm.
  reflexivity.
Qed.

(** C2.  [transform_to_gemini_format] is specified never to raise and to
    give text "" and finish reason "STOP" on an empty choices list; on
    [{"choices": []}] the subscript [[0]] raises [IndexError]. *)
Theorem transform_to_gemini_format_empty_choices_raises :
  transform_to_gemini_format (JObj {[ "choices" := JList [] ]})
  = Raise (IndexError "list index out of range").
Proof. vm_compute. reflexivity. Qed.

(** ** Running the handlers *)

Lemma after_limiter_last o w :
  last_gemini_request_time (after_limiter o w) = last_gemini_request_time w.
Proof. unfold after_limiter. by destruct (Qlt_le_dec _ _). Qed.

Lemma after_limiter_outbound o w :
  outbound (after_limiter o w) = outbound w.
Proof. unfold after_limiter. by destruct (Qlt_le_dec _ _). Qed.

(** After the limiter check at least [GEMINI_REQUEST_DELAY] has passed
    since the recorded instant. *)
Lemma after_limiter_clock o w :
  (0 <= oversleep o ->
   last_gemini_request_time w + GEMINI_REQUEST_DELAY <= clock (after_limiter o w))%Q.
Proof.
  intros Hover. unfold after_limiter.
  destruct (Qlt_le_dec _ _) as [Hlt | Hge]; cbn [clock]; lra.
Qed.

Lemma handle_gemini_request_no_key o cd key w :
  resolve_api_key key (getenv o "GEMINI_API_KEY") = None ->
  handle_gemini_request o cd key w
  = (Raise (ValueError "Gemini API key is missing. Not found in client request or on server."),
     after_limiter o w).
Proof.
  intros Hkey. unfold handle_gemini_request, after_limiter. run_monad.
  rewrite Hkey. destruct (Qlt_le_dec _ _); reflexivity.
Qed.

Lemma handle_gemini_request_not_dict o cd key k w :
  resolve_api_key key (getenv o "GEMINI_API_KEY") = Some k ->
  (forall m, cd <> JObj m) ->
  exists e, handle_gemini_request o cd key w = (Raise e, after_limiter o w).
Proof.
  intros Hkey Hcd. unfold handle_gemini_request, after_limiter. run_monad.
  rewrite Hkey.
  destruct cd; try (by destruct (Hcd m));
    cbn [Py.pop]; destruct (Qlt_le_dec _ _); eexists; reflexivity.
Qed.

(** The run of [handle_gemini_request] once a key is there: one call
    goes out, and the limiter instant is written only when the call
    came back without an HTTP error. *)
Lemma handle_gemini_request_call o m key k w :
  resolve_api_key key (getenv o "GEMINI_API_KEY") = Some k ->
  handle_gemini_request o (JObj m) key w
  = let w1 := after_limiter o w in
    let c := gemini_call m k in
    let s := (clock w1 + dispatch_lag o)%Q in
    let sent := (outbound w ++ [(s, c)])%list in
    match answer o c with
    | Unreachable msg =>
        (Raise (RequestException msg),
         {| clock := s + latency o;
            last_gemini_request_time := last_gemini_request_time w;
            outbound := sent |})
    | Replied r =>
        if is_http_error (status_code r)
        then (Raise (HTTPError (status_code r) (text r) (decoded r)),
              {| clock := s + latency o;
                 last_gemini_request_time := last_gemini_request_time w;
                 outbound := sent |})
        else (response_json r,
              {| clock := s + latency o + record_lag o;
                 last_gemini_request_time := s + latency o + record_lag o;
                 outbound := sent |})
    end.
Proof.
  intros Hkey. unfold handle_gemini_request, after_limiter, gemini_call. run_monad.
  rewrite Hkey. cbn [Py.pop]. unfold raise_for_status, is_http_error.
  destruct (Qlt_le_dec _ _); cbn [clock last_gemini_request_time outbound];
    destruct (answer o _) as [r | msg]; try reflexivity;
    destruct (_ && _); reflexivity.
Qed.

Lemma handle_openai_compatible_no_key o cd key name base env extra w :
  resolve_api_key key (getenv o env) = None ->
  handle_openai_compatible o cd key name base env extra w
  = (Raise (ValueError (name +:+
       " API key is missing. Not found in client request or on server (env var: " +:+
       env +:+ ").")), w).
Proof. intros Hkey. unfold handle_openai_compatible. rewrite Hkey. reflexivity. Qed.

Lemma handle_openai_compatible_no_body o cd key k name base env extra w e :
  resolve_api_key key (getenv o env) = Some k ->
  openai_body cd = Raise e ->
  handle_openai_compatible o cd key name base env extra w = (Raise e, w).
Proof.
  intros Hkey Hbody. unfold handle_openai_compatible, openai_body in *.
  rewrite Hkey. run_monad.
  destruct (transform_to_openai_format cd) as [msgs | e']; cbn [rbind] in Hbody.
  - rewrite Hbody. reflexivity.
  - congruence.
Qed.

(** The run of [handle_openai_compatible] once key and payload are
    there: one call goes out; the limiter instant is never touched. *)
Lemma handle_openai_compatible_call o cd key k name base env extra w payload :
  resolve_api_key key (getenv o env) = Some k ->
  openai_body cd = Ok payload ->
  handle_openai_compatible o cd key name base env extra w
  = let c := openai_call base k extra payload in
    let s := (clock w + dispatch_lag o)%Q in
    (match answer o c with
     | Unreachable msg => Raise (RequestException msg)
     | Replied r =>
         if is_http_error (status_code r)
         then Raise (HTTPError (status_code r) (text r) (decoded r))
         else (j <~ response_json r; transform_to_gemini_format j)%result
     end,
     {| clock := s + latency o;
        last_gemini_request_time := last_gemini_request_time w;
        outbound := outbound w ++ [(s, c)] |}).
Proof.
  intros Hkey Hbody. unfold handle_openai_compatible, openai_body, openai_call in *.
  rewrite Hkey. run_monad.
  destruct (transform_to_openai_format cd) as [msgs | e']; cbn [rbind] in Hbody;
    [| congruence].
  rewrite Hbody. cbn [clock last_gemini_request_time outbound].
  unfold raise_for_status, is_http_error.
  destruct (answer o _) as [r | msg]; [| reflexivity].
  destruct (_ && _); [reflexivity |].
  destruct (response_json r); reflexivity.
Qed.

Lemma route_routed o req m provider :
  routed o req m provider ->
  route o req
  = select_provider o provider (JObj (delete "provider" m)) (caller_key req).
Proof.
  intros (Hbody & Hne & p & Hp & Hlow). unfold route, get_json.
  rewrite Hbody. unfold bind at 1, lift at 1. cbn [Py.truthy].
  rewrite bool_decide_false by done. cbn [negb Py.pop].
  unfold bind at 1, lift at 1. rewrite Hp. cbn [py_lower].
  unfold bind at 1, lift at 1. rewrite Hlow. reflexivity.
Qed.

Lemma proxy_handler_routed o req m provider w :
  routed o req m provider ->
  proxy_handler o req w
  = match select_provider o provider (JObj (delete "provider" m)) (caller_key req)
            {| clock := clock w + arrival o;
               last_gemini_request_time := last_gemini_request_time w;
               outbound := outbound w |} with
    | (Ok r, w') => (r, w')
    | (Raise e, w') => (on_exception e, w')
    end.
Proof.
  intros Hr. unfold proxy_handler. unfold bind at 1, elapse.
  rewrite (route_routed o req m provider Hr). reflexivity.
Qed.

(** ** Dispatcher: validation *)

Lemma route_falsy (o : oracle) (req : request) (w : world) (v : json) :
  body req = BodyJson v ->
  Py.truthy v = false ->
  route o req w = (Ok (error_body "Invalid JSON body", 400%Z), w).
Proof.
  intros Hbody Hfalsy. unfold route, get_json. rewrite Hbody.
  unfold bind, lift. rewrite Hfalsy. reflexivity.
Qed.

Lemma proxy_handler_route (o : oracle) (req : request) (w : world) :
  proxy_handler o req w
  = match route o req (arrived o w) with
    | (Ok r, w') => (r, w')
    | (Raise e, w') => (on_exception e, w')
    end.
Proof. reflexivity. Qed.

(** C10.  A body that decodes to a falsy value (the empty object, the
    empty list, 0, false, null, and likewise 0.0 and the empty string)
    is answered with the 400 "Invalid JSON body" error, and no outbound
    call is made: the handler tests [not client_data]. *)
Theorem falsy_body_is_invalid_json_body (o : oracle) (req : request) (w : world) (v : json) :
  body req = BodyJson v ->
  Py.truthy v = false ->
  proxy_handler o req w = ((error_body "Invalid JSON body", 400%Z), arrived o w).
Proof.
  intros Hbody Hfalsy. rewrite proxy_handler_route.
  by rewrite (route_falsy o req (arrived o w) v Hbody Hfalsy).
Qed.

Lemma falsy_json_values :
  Forall (fun v => Py.truthy v = false)
         [JObj ∅; JList []; JInt 0; JBool false; JNull; JFloat 0; JStr ""].
Proof. repeat constructor. Qed.

Lemma falsy_body_is_invalid_json_body_witness :
  Forall (fun v =>
            proxy_handler quiet_oracle (posted v) start_world
            = ((error_body "Invalid JSON body", 400%Z), arrived quiet_oracle start_world))
         [JObj ∅; JList []; JInt 0; JBool false; JNull].
Proof.
  do 5 (constructor; [eapply falsy_body_is_invalid_json_body; reflexivity |]).
  constructor.
Defined.

(** C5.  A body that does not decode is specified to be answered with a
    400-class error.  [request.get_json()] raises on such a body, inside
    the [try] block, and the catch-all clause answers 500. *)
Theorem undecodable_body_is_answered_500 (o : oracle) (hdrs : gmap string string)
    (why : string) (w : world) :
  proxy_handler o {| body := BodyUndecodable why; headers := hdrs |} w
  = ((error_body ("Proxy internal error: 400 Bad Request: Failed to decode JSON object: "
                  +:+ why), 500%Z),
     arrived o w).
Proof.
  rewrite proxy_handler_route. unfold route, get_json. cbn [body].
  unfold bind, lift. reflexivity.
Qed.

(** The other half of C5 holds: an unknown provider name is answered
    with a 400 whose message ends with the normalized name, and nothing
    is sent upstream. *)
Lemma unsupported_provider_rejected (o : oracle) (req : request) (w : world)
    (m : gmap string json) (provider : string) :
  routed o req m provider ->
  ~ supported provider ->
  proxy_handler o req w
  = ((error_body ("Unsupported provider: " +:+ provider), 400%Z), arrived o w).
Proof.
  intros Hr Hns. rewrite (proxy_handler_routed o req m provider w Hr).
  unfold select_provider, supported in *.
  destruct (String.eqb_spec provider "llmost"); [tauto |].
  destruct (String.eqb_spec provider "openrouter"); [tauto |].
  destruct (String.eqb_spec provider "gemini"); [tauto |].
  reflexivity.
Qed.

(** ** Rate limiter *)

Lemma sent_nothing_sent_one {A} (l : list A) (x : A) : l = l ++ [x] -> False.
Proof.
  intros H. apply (f_equal length) in H. rewrite length_app in H.
  cbn [length] in H. lia.
Qed.

Lemma sent_one_inj {A} (l : list A) (x y : A) : l ++ [x] = l ++ [y] -> x = y.
Proof. intros H. apply app_inv_head in H. congruence. Qed.

Lemma proxy_handler_gemini o req m w :
  routed o req m "gemini" ->
  proxy_handler o req w
  = match handle_gemini_request o (JObj (delete "provider" m)) (caller_key req)
            (arrived o w) with
    | (Ok d, w') => ((d, 200%Z), w')
    | (Raise e, w') => (on_exception e, w')
    end.
Proof.
  intros Hr. rewrite (proxy_handler_routed o req m "gemini" w Hr).
  unfold select_provider, arrived. cbn [String.eqb Ascii.eqb Bool.eqb].
  unfold bind, ret.
  destruct (handle_gemini_request _ _ _ _) as [[d | e] w']; reflexivity.
Qed.

(** What is known of a run of [handle_gemini_request] that sent a
    call: which call, when, and what became of the limiter instant. *)
Lemma handle_gemini_request_sent o m key w t c :
  outbound (snd (handle_gemini_request o (JObj m) key w)) = outbound w ++ [(t, c)] ->
  exists k,
    resolve_api_key key (getenv o "GEMINI_API_KEY") = Some k /\
    c = gemini_call m k /\
    t = (clock (after_limiter o w) + dispatch_lag o)%Q /\
    handle_gemini_request o (JObj m) key w
    = match answer o c with
      | Unreachable msg =>
          (Raise (RequestException msg),
           {| clock := t + latency o;
              last_gemini_request_time := last_gemini_request_time w;
              outbound := outbound w ++ [(t, c)] |})
      | Replied r =>
          if is_http_error (status_code r)
          then (Raise (HTTPError (status_code r) (text r) (decoded r)),
                {| clock := t + latency o;
                   last_gemini_request_time := last_gemini_request_time w;
                   outbound := outbound w ++ [(t, c)] |})
          else (response_json r,
                {| clock := t + latency o + record_lag o;
                   last_gemini_request_time := t + latency o + record_lag o;
                   outbound := outbound w ++ [(t, c)] |})
      end.
Proof.
  intros Hsent.
  destruct (resolve_api_key key (getenv o "GEMINI_API_KEY")) as [k |] eqn:Hkey.
  - exists k. pose proof (handle_gemini_request_call o m key k w Hkey) as Hrun.
    cbv zeta in Hrun.
    assert (Hout : outbound (snd (handle_gemini_request o (JObj m) key w))
                   = outbound w ++ [((clock (after_limiter o w) + dispatch_lag o)%Q,
                                     gemini_call m k)]).
    { rewrite Hrun. destruct (answer o _) as [r |]; [destruct (is_http_error _) |];
        reflexivity. }
    rewrite Hout in Hsent. apply sent_one_inj in Hsent.
    injection Hsent as Ht Hc. subst t c. done.
  - rewrite (handle_gemini_request_no_key o (JObj m) key w Hkey) in Hsent.
    cbn [snd] in Hsent. rewrite after_limiter_outbound in Hsent.
    by apply sent_nothing_sent_one in Hsent.
Qed.

(** C9.  When the outbound Gemini call fails (a 4xx or 5xx status, or a
    transport failure), or no call goes out at all, the handler raises
    and [last_gemini_request_time] keeps its value.  The limiter check
    of the next request is therefore made against the instant of the
    last successful call: when that lies [GEMINI_REQUEST_DELAY] back,
    the next call goes out without any wait, however recent the failed
    one was. *)
Theorem failed_gemini_call_keeps_limiter_instant
    (o : oracle) (m : gmap string json) (key : string) (w : world) :
  let run := handle_gemini_request o (JObj m) key w in
  (forall t c, outbound (snd run) = outbound w ++ [(t, c)] -> upstream_fails (answer o c)) ->
  last_gemini_request_time (snd run) = last_gemini_request_time w /\
  (exists e, fst run = Raise e) /\
  (forall o2 m2 key2 k2,
      resolve_api_key key2 (getenv o2 "GEMINI_API_KEY") = Some k2 ->
      (GEMINI_REQUEST_DELAY <= clock (snd run) + arrival o2 - last_gemini_request_time w)%Q ->
      outbound (snd (handle_gemini_request o2 (JObj m2) key2 (arrived o2 (snd run))))
      = outbound (snd run)
        ++ [((clock (snd run) + arrival o2 + dispatch_lag o2)%Q, gemini_call m2 k2)]).
Proof.
  intros run Hfails.
  assert (Hlast : last_gemini_request_time (snd run) = last_gemini_request_time w
                  /\ exists e, fst run = Raise e).
  { subst run.
    destruct (resolve_api_key key (getenv o "GEMINI_API_KEY")) as [k |] eqn:Hkey.
    - pose proof (handle_gemini_request_call o m key k w Hkey) as Hrun.
      cbv zeta in Hrun.
      specialize (Hfails (clock (after_limiter o w) + dispatch_lag o)%Q (gemini_call m k)).
      rewrite Hrun in *.
      destruct (answer o (gemini_call m k)) as [r | msg].
      + destruct (is_http_error (status_code r)) eqn:Herr.
        * cbn [fst snd last_gemini_request_time]. eauto.
        * specialize (Hfails eq_refl). cbn [upstream_fails] in Hfails. congruence.
      + cbn [fst snd last_gemini_request_time]. eauto.
    - rewrite (handle_gemini_request_no_key o (JObj m) key w Hkey).
      cbn [fst snd]. rewrite after_limiter_last. eauto. }
  destruct Hlast as [Hlast Hraise]. split; [done |]. split; [done |].
  intros o2 m2 key2 k2 Hkey2 Hfree.
  pose proof (handle_gemini_request_call o2 m2 key2 k2 (arrived o2 (snd run)) Hkey2) as Hrun.
  cbv zeta in Hrun.
  assert (Hnow : after_limiter o2 (arrived o2 (snd run)) = arrived o2 (snd run)).
  { unfold after_limiter. cbn [arrived clock last_gemini_request_time].
    rewrite Hlast. destruct (Qlt_le_dec _ _) as [Hlt | Hge]; [| reflexivity].
    exfalso. lra. }
  rewrite Hnow in Hrun. rewrite Hrun.
  destruct (answer o2 _) as [r |]; [destruct (is_http_error _) |]; reflexivity.
Qed.

Lemma failed_gemini_call_keeps_limiter_instant_witness :
  let o := answering 503 "overloaded" (Undecodable "Expecting value") in
  let run := handle_gemini_request o (JObj hi_body) "" start_world in
  last_gemini_request_time (snd run) = 0%Q /\
  (exists e, fst run = Raise e) /\
  (forall o2 m2 key2 k2,
      resolve_api_key key2 (getenv o2 "GEMINI_API_KEY") = Some k2 ->
      (GEMINI_REQUEST_DELAY <= clock (snd run) + arrival o2 - 0)%Q ->
      outbound (snd (handle_gemini_request o2 (JObj m2) key2 (arrived o2 (snd run))))
      = outbound (snd run)
        ++ [((clock (snd run) + arrival o2 + dispatch_lag o2)%Q, gemini_call m2 k2)]).
Proof.
  intros o run.
  apply (failed_gemini_call_keeps_limiter_instant o hi_body "" start_world).
  intros t c _. reflexivity.
Defined.

(** On ASCII text [str.lower] does not depend on the runtime. *)
Lemma lower_ascii (o : oracle) (s : string) :
  is_ascii s = true -> lower o s = ascii_lower s.
Proof. intros Hs. unfold lower. by rewrite Hs. Qed.

(** [routed] for a concrete request. *)
Lemma routed_intro (o : oracle) (req : request) (m : gmap string json) (k : string) (v : json)
    (p : string) :
  body req = BodyJson (JObj m) ->
  m !! k = Some v ->
  default (JStr "gemini") (m !! "provider") = JStr p ->
  routed o req m (lower o p).
Proof.
  intros Hbody Hk Hp. split; [done |]. split; [| by exists p].
  intros ->. by rewrite lookup_empty in Hk.
Qed.

(** C1, as amended.  Of two Gemini requests handled one after the other,
    when the first outbound call came back without an HTTP error: the
    limiter instant was recorded after that call was dispatched; the
    second handler, finding [elapsed] below [GEMINI_REQUEST_DELAY],
    sleeps for the difference (and whatever the sleep overshoots) before
    it sends, and does not sleep otherwise; so the second outbound call
    goes out at least [GEMINI_REQUEST_DELAY] after the recorded instant,
    hence at least that long after the first call went out. *)
Theorem gemini_calls_spaced_after_success
    (o1 o2 : oracle) (req1 req2 : request) (m1 m2 : gmap string json) (w0 : world)
    (t1 t2 : Q) (c1 c2 : post_call) (r1 : response) :
  oracle_ok o1 -> oracle_ok o2 ->
  routed o1 req1 m1 "gemini" -> routed o2 req2 m2 "gemini" ->
  let w1 := snd (proxy_handler o1 req1 w0) in
  let w2 := snd (proxy_handler o2 req2 w1) in
  outbound w1 = outbound w0 ++ [(t1, c1)] ->
  answer o1 c1 = Replied r1 ->
  is_http_error (status_code r1) = false ->
  outbound w2 = outbound w1 ++ [(t2, c2)] ->
  let elapsed := (clock w1 + arrival o2 - last_gemini_request_time w1)%Q in
  (t1 <= last_gemini_request_time w1 /\
   (elapsed < GEMINI_REQUEST_DELAY ->
    t2 == clock w1 + arrival o2 + (GEMINI_REQUEST_DELAY - elapsed) + oversleep o2
          + dispatch_lag o2) /\
   (GEMINI_REQUEST_DELAY <= elapsed -> t2 == clock w1 + arrival o2 + dispatch_lag o2) /\
   last_gemini_request_time w1 + GEMINI_REQUEST_DELAY <= t2 /\
   t1 + GEMINI_REQUEST_DELAY <= t2)%Q.
Proof.
  intros (Ha1 & Hs1 & Hd1 & Hl1 & Hr1) (Ha2 & Hs2 & Hd2 & Hl2 & Hr2) Hreq1 Hreq2 w1 w2
    Hsent1 Hans Hok Hsent2.
  assert (Hsnd : forall o req m w, routed o req m "gemini" ->
            snd (proxy_handler o req w)
            = snd (handle_gemini_request o (JObj (delete "provider" m)) (caller_key req)
                     (arrived o w))).
  { intros o req m w Hr. rewrite (proxy_handler_gemini o req m w Hr).
    destruct (handle_gemini_request _ _ _ _) as [[d | e] w']; reflexivity. }
  subst w2. rewrite (Hsnd o2 req2 m2 w1 Hreq2) in Hsent2.
  subst w1. rewrite (Hsnd o1 req1 m1 w0 Hreq1) in *.
  change (outbound w0) with (outbound (arrived o1 w0)) in Hsent1.
  apply handle_gemini_request_sent in Hsent1 as (k1 & _ & _ & Ht1 & Hrun1).
  rewrite Hans, Hok in Hrun1. rewrite Hrun1 in *. cbn [snd] in *.
  match type of Hsent2 with
  | outbound (snd (handle_gemini_request _ _ _ (arrived ?o ?w))) = _ =>
      change (outbound w) with (outbound (arrived o w)) in Hsent2;
      apply handle_gemini_request_sent in Hsent2 as (k2 & _ & _ & Ht2 & _);
      pose proof (after_limiter_clock o2 (arrived o w) Hs2) as Hwait
  end.
  clear Ht1 Hwait. subst t2. cbv zeta. unfold after_limiter.
  cbn [arrived clock last_gemini_request_time].
  destruct (Qlt_le_dec _ _) as [Hlt | Hge]; cbn [arrived clock];
    (split; [lra | split; [intros Hcase; lra | split; [intros Hcase; lra | split; lra]]]).
Qed.

Lemma answering_ok status txt d : oracle_ok (answering status txt d).
Proof. unfold oracle_ok, answering; cbn. repeat split; lra. Qed.

Lemma posted_hi_routed (o : oracle) : routed o (posted (JObj hi_body)) hi_body "gemini".
Proof. by apply (routed_intro o _ hi_body "contents" hi_turns "gemini"). Qed.

Lemma gemini_calls_spaced_after_success_witness :
  let o := answering 200 "{}" (Decodes (JObj ∅)) in
  let w1 := snd (proxy_handler o (posted (JObj hi_body)) start_world) in
  let elapsed := (clock w1 + arrival o - last_gemini_request_time w1)%Q in
  (100 <= last_gemini_request_time w1 /\
   (elapsed < GEMINI_REQUEST_DELAY ->
    112 == clock w1 + arrival o + (GEMINI_REQUEST_DELAY - elapsed) + oversleep o
           + dispatch_lag o) /\
   (GEMINI_REQUEST_DELAY <= elapsed -> 112 == clock w1 + arrival o + dispatch_lag o) /\
   last_gemini_request_time w1 + GEMINI_REQUEST_DELAY <= 112 /\
   100 + GEMINI_REQUEST_DELAY <= 112)%Q.
Proof.
  intros o w1.
  apply (gemini_calls_spaced_after_success o o
           (posted (JObj hi_body)) (posted (JObj hi_body)) hi_body hi_body start_world
           100 112
           (gemini_call (delete "provider" hi_body) "server-gemini-key")
           (gemini_call (delete "provider" hi_body) "server-gemini-key")
           {| status_code := 200; text := "{}"; decoded := Decodes (JObj ∅) |}).
  - apply answering_ok.
  - apply answering_ok.
  - apply posted_hi_routed.
  - apply posted_hi_routed.
  - vm_compute. reflexivity.
  - reflexivity.
  - reflexivity.
  - vm_compute. reflexivity.
Defined.

(** It fails when the first call is answered 429: the limiter instant
    is not recorded, and the second call goes out one second after the
    first. *)
Lemma back_to_back_spacing_fails_after_error : ~ back_to_back_spacing.
Proof.
  intros Hclaim.
  pose (o1 := answering 429 "quota exceeded" (Undecodable "Expecting value")).
  pose (o2 := answering 200 "{}" (Decodes (JObj ∅))).
  pose (c := gemini_call (delete "provider" hi_body) "server-gemini-key").
  assert (Hle : (100 + GEMINI_REQUEST_DELAY <= 101)%Q).
  { apply (Hclaim o1 o2 (posted (JObj hi_body)) (posted (JObj hi_body))
             hi_body hi_body start_world 100%Q 101%Q c c).
    - apply answering_ok.
    - apply answering_ok.
    - apply posted_hi_routed.
    - apply posted_hi_routed.
    - vm_compute. reflexivity.
    - vm_compute. reflexivity. }
  unfold GEMINI_REQUEST_DELAY in Hle. lra.
Qed.

(** ** Provider clients: what goes out *)

Lemma chat_provider_of_cases provider cp :
  chat_provider_of provider = Some cp ->
  (provider = "llmost" /\ cp_extra_headers cp = ∅) \/
  (provider = "openrouter" /\
   cp_extra_headers cp
   = {[ "HTTP-Referer" := "https://github.com/MrKins/Chronicles-of-Meterea";
        "X-Title" := "Chronicles of Meterea" ]}).
Proof.
  unfold chat_provider_of.
  destruct (String.eqb_spec provider "llmost") as [-> | _].
  - intros [= <-]. by left.
  - destruct (String.eqb_spec provider "openrouter") as [-> | _]; [| done].
    intros [= <-]. by right.
Qed.

Lemma select_provider_chat o provider cp cd key :
  chat_provider_of provider = Some cp ->
  select_provider o provider cd key
  = (response_data <- handle_openai_compatible o cd key (cp_name cp) (cp_base_url cp)
                        (cp_env_key cp) (cp_extra_headers cp) ;;
     ret (response_data, 200%Z)).
Proof.
  unfold chat_provider_of, select_provider.
  destruct (String.eqb provider "llmost"); [by intros [= <-] |].
  destruct (String.eqb provider "openrouter"); [by intros [= <-] | done].
Qed.

Lemma proxy_handler_chat o req m provider cp w :
  routed o req m provider ->
  chat_provider_of provider = Some cp ->
  proxy_handler o req w
  = match handle_openai_compatible o (JObj (delete "provider" m)) (caller_key req)
            (cp_name cp) (cp_base_url cp) (cp_env_key cp) (cp_extra_headers cp)
            (arrived o w) with
    | (Ok d, w') => ((d, 200%Z), w')
    | (Raise e, w') => (on_exception e, w')
    end.
Proof.
  intros Hr Hcp. rewrite (proxy_handler_routed o req m provider w Hr).
  rewrite (select_provider_chat o provider cp _ _ Hcp). unfold arrived, bind, ret.
  destruct (handle_openai_compatible _ _ _ _ _ _ _ _) as [[d | e] w']; reflexivity.
Qed.

Lemma supported_cases provider :
  supported provider ->
  provider = "gemini" \/ exists cp, chat_provider_of provider = Some cp.
Proof. intros [-> | [-> | ->]]; [right | right | left]; eauto. Qed.

Lemma handle_openai_compatible_sent o cd key name base env extra w t c :
  outbound (snd (handle_openai_compatible o cd key name base env extra w))
  = outbound w ++ [(t, c)] ->
  exists k payload,
    resolve_api_key key (getenv o env) = Some k /\
    openai_body cd = Ok payload /\
    c = openai_call base k extra payload /\
    t = (clock w + dispatch_lag o)%Q /\
    fst (handle_openai_compatible o cd key name base env extra w)
    = match answer o c with
      | Unreachable msg => Raise (RequestException msg)
      | Replied r =>
          if is_http_error (status_code r)
          then Raise (HTTPError (status_code r) (text r) (decoded r))
          else (j <~ response_json r; transform_to_gemini_format j)%result
      end.
Proof.
  intros Hsent.
  destruct (resolve_api_key key (getenv o env)) as [k |] eqn:Hkey.
  - destruct (openai_body cd) as [payload | e] eqn:Hbody.
    + exists k, payload.
      rewrite (handle_openai_compatible_call o cd key k name base env extra w payload
                 Hkey Hbody) in *.
      cbv zeta in *. cbn [fst snd outbound] in *.
      apply sent_one_inj in Hsent. injection Hsent as Ht Hc. subst t c. done.
    + rewrite (handle_openai_compatible_no_body o cd key k name base env extra w e
                 Hkey Hbody) in Hsent.
      by apply sent_nothing_sent_one in Hsent.
  - rewrite (handle_openai_compatible_no_key o cd key name base env extra w Hkey) in Hsent.
    by apply sent_nothing_sent_one in Hsent.
Qed.

(** Only a request routed to one of the three providers sends anything. *)
Lemma proxy_handler_sent_routed o req w t c :
  outbound (snd (proxy_handler o req w)) = outbound w ++ [(t, c)] ->
  exists m provider, routed o req m provider /\ supported provider.
Proof.
  intros Hsent.
  assert (Hquiet : forall r, proxy_handler o req w = (r, arrived o w) -> False).
  { intros r Hrun. rewrite Hrun in Hsent. by apply sent_nothing_sent_one in Hsent. }
  destruct (body req) as [v | why |] eqn:Hbody.
  - destruct (Py.truthy v) eqn:Htruthy.
    + destruct v as [| b | z | q | s | l | m];
        try (exfalso; eapply Hquiet; unfold proxy_handler, route, get_json;
             rewrite Hbody; run_monad; rewrite Htruthy; reflexivity).
      assert (Hne : m <> ∅).
      { intros ->. cbn in Htruthy. by rewrite bool_decide_true in Htruthy. }
      destruct (default (JStr "gemini") (m !! "provider")) as [| b | z | q | p | l | m']
        eqn:Hp;
        try (exfalso; eapply Hquiet; unfold proxy_handler, route, get_json;
             rewrite Hbody; run_monad; rewrite Htruthy; cbn [negb Py.pop];
             rewrite Hp; reflexivity).
      assert (Hr : routed o req m (lower o p)) by (split; [done |]; split; [done |]; eauto).
      exists m, (lower o p). split; [done |].
      destruct (String.eqb_spec (lower o p) "llmost") as [-> | Hn1]; [by left |].
      destruct (String.eqb_spec (lower o p) "openrouter") as [-> | Hn2]; [by right; left |].
      destruct (String.eqb_spec (lower o p) "gemini") as [-> | Hn3]; [by right; right |].
      exfalso. eapply Hquiet.
      apply (unsupported_provider_rejected o req w m (lower o p) Hr).
      unfold supported. tauto.
    + exfalso. eapply Hquiet. rewrite proxy_handler_route.
      by rewrite (route_falsy o req (arrived o w) v Hbody Htruthy).
  - exfalso. eapply Hquiet. unfold proxy_handler, route, get_json.
    rewrite Hbody. reflexivity.
  - exfalso. eapply Hquiet. unfold proxy_handler, route, get_json.
    rewrite Hbody. reflexivity.
Qed.

Lemma append_empty_r (s : string) : s +:+ "" = s.
Proof.
  induction s as [| c s IH]; [reflexivity |].
  change (String c (s +:+ "") = String c s). by f_equal.
Qed.

(** C4, as amended.  A request routed to Gemini, with a key at hand,
    sends exactly one call: to the [generateContent] endpoint of the
    requested model (the default model when [modelName] is absent), with
    the key in the [key] query parameter and no header, and with the
    inbound body less its [provider] and [modelName] fields.  When the
    call comes back without an HTTP error and its body decodes, the
    decoded JSON is the response, with status 200. *)
Theorem gemini_request_forwarded
    (o : oracle) (req : request) (m : gmap string json) (w : world) (k : string) :
  routed o req m "gemini" ->
  resolve_api_key (caller_key req) (getenv o "GEMINI_API_KEY") = Some k ->
  let model := default (JStr "gemini-1.5-flash-latest") (m !! "modelName") in
  let call :=
    {| post_url := [FText GEMINI_MODELS_URL; FValue model;
                    FText ":generateContent?key="; FValue (JStr k)];
       post_json := JObj (delete "modelName" (delete "provider" m));
       post_headers := ∅;
       post_timeout := 45 |} in
  (exists t, outbound (snd (proxy_handler o req w)) = outbound w ++ [(t, call)]) /\
  (forall name, model = JStr name ->
     render (post_url call)
     = Some (GEMINI_MODELS_URL +:+ name +:+ ":generateContent?key=" +:+ k)) /\
  (forall r v, answer o call = Replied r ->
     is_http_error (status_code r) = false ->
     decoded r = Decodes v ->
     fst (proxy_handler o req w) = (v, 200%Z)).
Proof.
  intros Hr Hkey model call.
  assert (Hcall : gemini_call (delete "provider" m) k = call).
  { unfold gemini_call, call, model, GEMINI_MODELS_URL.
    by rewrite lookup_delete_ne. }
  rewrite (proxy_handler_gemini o req m w Hr).
  rewrite (handle_gemini_request_call o _ _ k (arrived o w) Hkey).
  cbv zeta. rewrite Hcall. split; [| split].
  - eexists. destruct (answer o call) as [r |]; [destruct (is_http_error _) |];
      [reflexivity | | reflexivity].
    destruct (response_json r); reflexivity.
  - intros name Hname. unfold call. cbn [post_url]. rewrite Hname.
    cbn [render format_value fmap option_fmap option_map].
    by rewrite append_empty_r.
  - intros r v Hans Hok Hdec. rewrite Hans, Hok. unfold response_json.
    rewrite Hdec. reflexivity.
Qed.

Lemma posted_pro_routed (o : oracle) : routed o (posted (JObj pro_body)) pro_body "gemini".
Proof. by apply (routed_intro o _ pro_body "contents" hi_turns "gemini"). Qed.

Lemma gemini_request_forwarded_witness :
  let o := answering 200 "{}" (Decodes (JObj ∅)) in
  let call :=
    {| post_url := [FText GEMINI_MODELS_URL; FValue (JStr "gemini-pro");
                    FText ":generateContent?key="; FValue (JStr "server-gemini-key")];
       post_json := JObj hi_body;
       post_headers := ∅;
       post_timeout := 45 |} in
  (exists t, outbound (snd (proxy_handler o (posted (JObj pro_body)) start_world))
             = outbound start_world ++ [(t, call)]) /\
  (forall name, JStr "gemini-pro" = JStr name ->
     render (post_url call)
     = Some (GEMINI_MODELS_URL +:+ name +:+ ":generateContent?key=" +:+ "server-gemini-key")) /\
  (forall r v, answer o call = Replied r ->
     is_http_error (status_code r) = false ->
     decoded r = Decodes v ->
     fst (proxy_handler o (posted (JObj pro_body)) start_world) = (v, 200%Z)).
Proof.
  intros o call.
  apply (gemini_request_forwarded o (posted (JObj pro_body)) pro_body start_world
           "server-gemini-key").
  - apply posted_pro_routed.
  - reflexivity.
Defined.

(** It fails on a request that names its model: [modelName] is popped
    from the body before the body is posted. *)
Lemma gemini_body_also_loses_model_name : ~ gemini_body_less_provider_only.
Proof.
  intros Hclaim.
  pose (o := answering 200 "{}" (Decodes (JObj ∅))).
  pose (c := gemini_call (delete "provider" pro_body) "server-gemini-key").
  assert (Hbody : post_json c = JObj (delete "provider" pro_body)).
  { apply (Hclaim o (posted (JObj pro_body)) pro_body start_world 100%Q c).
    - apply posted_pro_routed.
    - vm_compute. reflexivity. }
  apply (f_equal (fun j => match j with
                           | JObj d => d !! "modelName"
                           | _ => None
                           end)) in Hbody.
  vm_compute in Hbody. discriminate Hbody.
Qed.

(** ** Upstream errors *)

(** C8, as amended.  When an outbound call, to any provider, comes back
    with a 4xx or 5xx status, the handler answers with that status, and
    with the upstream body itself when it decodes as JSON, or with
    [{"error": {"message": <upstream text>}}] when it does not. *)
Theorem upstream_http_error_passed_through
    (o : oracle) (req : request) (w : world) (t : Q) (c : post_call) (r : response) :
  outbound (snd (proxy_handler o req w)) = outbound w ++ [(t, c)] ->
  answer o c = Replied r ->
  (400 <= status_code r < 600)%Z ->
  fst (proxy_handler o req w)
  = match decoded r with
    | Decodes v => (v, status_code r)
    | Undecodable _ => (error_body (text r), status_code r)
    end.
Proof.
  intros Hsent Hans Hstatus.
  assert (Herr : is_http_error (status_code r) = true).
  { unfold is_http_error. apply andb_true_intro. split; [apply Z.leb_le | apply Z.ltb_lt]; lia. }
  destruct (proxy_handler_sent_routed o req w t c Hsent) as (m & provider & Hr & Hsup).
  destruct (supported_cases provider Hsup) as [-> | [cp Hcp]].
  - rewrite (proxy_handler_gemini o req m w Hr) in *.
    assert (Hsent' : outbound (snd (handle_gemini_request o (JObj (delete "provider" m))
                                      (caller_key req) (arrived o w)))
                     = outbound (arrived o w) ++ [(t, c)]).
    { destruct (handle_gemini_request _ _ _ _) as [[d | e] w']; exact Hsent. }
    apply handle_gemini_request_sent in Hsent' as (k & _ & _ & _ & Hrun).
    rewrite Hans, Herr in Hrun. rewrite Hrun. reflexivity.
  - rewrite (proxy_handler_chat o req m provider cp w Hr Hcp) in *.
    assert (Hsent' : outbound (snd (handle_openai_compatible o (JObj (delete "provider" m))
                                      (caller_key req) (cp_name cp) (cp_base_url cp)
                                      (cp_env_key cp) (cp_extra_headers cp) (arrived o w)))
                     = outbound (arrived o w) ++ [(t, c)]).
    { destruct (handle_openai_compatible _ _ _ _ _ _ _ _) as [[d | e] w']; exact Hsent. }
    apply handle_openai_compatible_sent in Hsent' as (k & payload & _ & _ & _ & _ & Hrun).
    rewrite Hans, Herr in Hrun.
    destruct (handle_openai_compatible _ _ _ _ _ _ _ _) as [res w']. cbn [fst] in Hrun.
    subst res. reflexivity.
Qed.

Lemma upstream_http_error_passed_through_witness :
  let o := answering 429 "quota exceeded" (Undecodable "Expecting value") in
  fst (proxy_handler o (posted (JObj hi_body)) start_world)
  = (error_body "quota exceeded", 429%Z).
Proof.
  intros o.
  apply (upstream_http_error_passed_through o (posted (JObj hi_body)) start_world 100
           (gemini_call (delete "provider" hi_body) "server-gemini-key")
           {| status_code := 429; text := "quota exceeded";
              decoded := Undecodable "Expecting value" |}).
  - vm_compute. reflexivity.
  - reflexivity.
  - cbn. lia.
Defined.

(** It fails for a status that [raise_for_status] lets through: a 304
    with an empty body is not raised as an HTTP error, [response.json()]
    then fails, and the catch-all clause answers 500. *)
Lemma status_304_is_answered_500 : ~ non_2xx_status_passed_through.
Proof.
  intros Hclaim.
  pose (o := answering 304 "" (Undecodable "Expecting value")).
  assert (Hstatus : snd (fst (proxy_handler o (posted (JObj hi_body)) start_world)) = 304%Z).
  { apply (Hclaim o (posted (JObj hi_body)) start_world 100%Q
             (gemini_call (delete "provider" hi_body) "server-gemini-key")
             {| status_code := 304; text := ""; decoded := Undecodable "Expecting value" |}).
    - vm_compute. reflexivity.
    - reflexivity.
    - cbn. lia. }
  vm_compute in Hstatus. discriminate Hstatus.
Qed.

(** ** Chat-completion providers *)

Lemma transform_to_openai_format_less_provider (m : gmap string json) :
  transform_to_openai_format (JObj (delete "provider" m))
  = transform_to_openai_format (JObj m).
Proof.
  unfold transform_to_openai_format. cbn [Py.get]. by rewrite lookup_delete_ne.
Qed.

Lemma openai_body_less_provider (m g : gmap string json) (msgs : list json) :
  transform_to_openai_format (JObj m) = Ok msgs ->
  default (JObj ∅) (m !! "generationConfig") = JObj g ->
  openai_body (JObj (delete "provider" m)) = Ok (chat_payload m g msgs).
Proof.
  intros Hmsgs Hg. unfold openai_body.
  rewrite transform_to_openai_format_less_provider, Hmsgs. cbn [rbind].
  unfold openai_payload. cbn [Py.get rbind].
  rewrite !lookup_delete_ne by done. rewrite Hg. reflexivity.
Qed.

(** With [contents] absent the turns are none; otherwise they are the
    list under [contents]. *)
Lemma transform_to_openai_format_default (m : gmap string json) (turns : list json) :
  default (JList []) (m !! "contents") = JList turns ->
  Forall turn_ok turns ->
  transform_to_openai_format (JObj m) = Ok (map translated turns).
Proof.
  intros Hc Hturns. unfold transform_to_openai_format.
  cbn [Py.get rbind]. rewrite Hc. cbn [Py.iter rbind].
  apply mapM_ok. eapply Forall_impl; [exact Hturns |].
  intros turn Hturn. by apply openai_message_ok.
Qed.

(** C6.  A request routed to [openrouter] or [llmost], with a key at
    hand and turns of the shape the translation gets through, sends
    exactly one call: a POST to [{base_url}/chat/completions] whose
    body is [{model, messages, temperature, max_tokens}] with the
    requested model name or "default-model", one message per turn, in
    the order of the turns (role "assistant" for a turn of role
    "model" and "user" for any other, content the text of the turn's
    first part or ""), the requested temperature or 0.7 and the
    requested [maxOutputTokens] or 4096; the key travels as
    [Bearer <key>] under the header [HTTP-Authorization], there is no
    [Authorization] header, and the provider's extra headers are all
    there. *)
Theorem chat_provider_call
    (o : oracle) (req : request) (m g : gmap string json) (provider : string)
    (cp : chat_provider) (w : world) (k : string) (turns : list json) :
  routed o req m provider ->
  chat_provider_of provider = Some cp ->
  resolve_api_key (caller_key req) (getenv o (cp_env_key cp)) = Some k ->
  default (JList []) (m !! "contents") = JList turns ->
  Forall turn_ok turns ->
  default (JObj ∅) (m !! "generationConfig") = JObj g ->
  exists t c,
    outbound (snd (proxy_handler o req w)) = outbound w ++ [(t, c)] /\
    render (post_url c) = Some (cp_base_url cp +:+ "/chat/completions") /\
    post_json c
    = JObj {[ "model" := default (JStr "default-model") (m !! "modelName");
              "messages" := JList (map translated turns);
              "temperature" := default (JFloat 0.7) (g !! "temperature");
              "max_tokens" := default (JInt 4096) (g !! "maxOutputTokens") ]} /\
    post_headers c !! "HTTP-Authorization" = Some ("Bearer " +:+ k) /\
    post_headers c !! "Authorization" = None /\
    cp_extra_headers cp ⊆ post_headers c.
Proof.
  intros Hr Hcp Hkey Hc Hturns Hg.
  pose proof (transform_to_openai_format_default m turns Hc Hturns) as Hmsgs.
  pose proof (openai_body_less_provider m g (map translated turns) Hmsgs Hg) as Hbody.
  rewrite (proxy_handler_chat o req m provider cp w Hr Hcp).
  rewrite (handle_openai_compatible_call o _ _ k _ _ _ _ (arrived o w) _ Hkey Hbody).
  cbv zeta.
  exists (clock (arrived o w) + dispatch_lag o)%Q,
         (openai_call (cp_base_url cp) k (cp_extra_headers cp)
            (chat_payload m g (map translated turns))).
  split; [| split; [| split; [| split; [| split]]]].
  - destruct (answer o _) as [r |]; [destruct (is_http_error _) |];
      [reflexivity | | reflexivity].
    destruct (response_json r) as [j |]; [| reflexivity].
    cbn [rbind]. destruct (transform_to_gemini_format j); reflexivity.
  - reflexivity.
  - reflexivity.
  - cbn [openai_call post_headers]. unfold openai_headers.
    destruct (chat_provider_of_cases provider cp Hcp) as [[_ ->] | [_ ->]];
      by simplify_map_eq.
  - cbn [openai_call post_headers]. unfold openai_headers.
    destruct (chat_provider_of_cases provider cp Hcp) as [[_ ->] | [_ ->]];
      by simplify_map_eq.
  - cbn [openai_call post_headers]. unfold openai_headers.
    apply map_union_subseteq_l.
Qed.

Lemma openrouter_request_routed (o : oracle) :
  routed o openrouter_request openrouter_body "openrouter".
Proof. by apply (routed_intro o _ openrouter_body "contents" hi_turns "openrouter"). Qed.

Lemma hi_turn_ok :
  Forall turn_ok
    [JObj {[ "role" := JStr "user"; "parts" := JList [JObj {[ "text" := JStr "hi" ]}] ]}].
Proof.
  constructor; [| constructor].
  eexists. split; [reflexivity |]. right. by eexists _, _.
Qed.

Lemma chat_provider_call_witness :
  exists t c,
    outbound (snd (proxy_handler quiet_oracle openrouter_request start_world))
    = outbound start_world ++ [(t, c)] /\
    render (post_url c) = Some "https://openrouter.ai/api/v1/chat/completions" /\
    post_json c
    = JObj {[ "model" := JStr "x";
              "messages" := JList [JObj {[ "role" := JStr "user"; "content" := JStr "hi" ]}];
              "temperature" := JFloat 0.7;
              "max_tokens" := JInt 4096 ]} /\
    post_headers c !! "HTTP-Authorization" = Some "Bearer abc" /\
    post_headers c !! "Authorization" = None /\
    cp_extra_headers openrouter_config ⊆ post_headers c.
Proof.
  assert (Hc : default (JList []) (openrouter_body !! "contents")
               = JList [JObj {[ "role" := JStr "user";
                                "parts" := JList [JObj {[ "text" := JStr "hi" ]}] ]}])
    by (vm_compute; reflexivity).
  assert (Hg : default (JObj ∅) (openrouter_body !! "generationConfig") = JObj ∅)
    by (vm_compute; reflexivity).
  assert (Hkey : resolve_api_key (caller_key openrouter_request)
                   (getenv quiet_oracle (cp_env_key openrouter_config)) = Some "abc")
    by (vm_compute; reflexivity).
  pose proof (chat_provider_call quiet_oracle openrouter_request openrouter_body ∅ "openrouter"
                openrouter_config start_world "abc" _
                (openrouter_request_routed _) eq_refl Hkey Hc hi_turn_ok Hg) as Hcall.
  vm_compute in Hcall. vm_compute. exact Hcall.
Defined.

(** ** API key resolution *)

Lemma resolve_api_key_by_priority caller from_env :
  resolve_api_key caller from_env = key_by_priority caller from_env.
Proof. destruct caller; [destruct from_env as [[] |] |]; reflexivity. Qed.

Lemma replace_no_occurrence (old new s : string) :
  occurs_in old s = false -> replace_from old new 0 s = s.
Proof.
  induction s as [| c s IH]; [reflexivity |].
  cbn [occurs_in replace_from]. intros [Hhere Hlater]%orb_false_elim.
  rewrite Hhere. by rewrite IH.
Qed.

Lemma prefix_append (s t : string) : String.prefix s (s +:+ t) = true.
Proof.
  induction s as [| c s IH]; [by destruct t |].
  change (String c s +:+ t) with (String c (s +:+ t)). cbn [String.prefix].
  by destruct (ascii_dec c c).
Qed.

Lemma replace_from_skip (old new s t : string) :
  replace_from old new (String.length s) (s +:+ t) = replace_from old new 0 t.
Proof.
  induction s as [| c s IH]; [reflexivity |].
  change (String c s +:+ t) with (String c (s +:+ t)). exact IH.
Qed.

Lemma replace_leading (old new t : string) :
  old <> "" ->
  replace_from old new 0 (old +:+ t) = new +:+ replace_from old new 0 t.
Proof.
  intros Hne. pose proof (prefix_append old t) as Hpre.
  destruct old as [| c old]; [done |].
  change (String c old +:+ t) with (String c (old +:+ t)) in *.
  cbn [replace_from]. rewrite Hpre.
  cbn [String.length]. rewrite Nat.sub_succ, Nat.sub_0_r.
  by rewrite replace_from_skip.
Qed.

Lemma caller_key_bearer (req : request) (k : string) :
  headers req !! "Authorization" = Some ("Bearer " +:+ k) ->
  occurs_in "Bearer " k = false ->
  caller_key req = k.
Proof.
  intros Hh Hk. unfold caller_key, replace. rewrite Hh. cbn [default from_option id].
  rewrite replace_leading by done. by rewrite replace_no_occurrence.
Qed.

Lemma caller_key_absent (req : request) :
  headers req !! "Authorization" = None -> caller_key req = "".
Proof. intros Hh. unfold caller_key. by rewrite Hh. Qed.

Lemma openai_headers_authorization (provider : string) (cp : chat_provider) (k : string) :
  chat_provider_of provider = Some cp ->
  openai_headers k (cp_extra_headers cp) !! "HTTP-Authorization" = Some ("Bearer " +:+ k).
Proof.
  intros Hcp. unfold openai_headers.
  destruct (chat_provider_of_cases provider cp Hcp) as [[_ ->] | [_ ->]];
    by simplify_map_eq.
Qed.

Lemma replace_from_keep (old new : string) (c : ascii) (s : string) :
  String.prefix old (String c s) = false ->
  replace_from old new 0 (String c s) = String c (replace_from old new 0 s).
Proof. intros Hpre. cbn [replace_from]. by rewrite Hpre. Qed.

(** [str.replace(old, "")] is the text with the occurrences of [old]
    taken out. *)
Lemma stripped_replace (old s s' : string) :
  old <> "" -> stripped old s s' -> s' = replace old "" s.
Proof.
  intros Hne Hs. unfold replace.
  induction Hs as [| s s' _ IH | c s s' Hpre _ IH].
  - reflexivity.
  - by rewrite replace_leading.
  - rewrite replace_from_keep by done. by rewrite IH.
Qed.

Lemma prefix_split (old s : string) :
  String.prefix old s = true -> exists t, s = old +:+ t.
Proof.
  revert s. induction old as [| a old IH]; intros s Hpre; [by exists s |].
  destruct s as [| b s]; [discriminate Hpre |]. cbn [String.prefix] in Hpre.
  destruct (ascii_dec a b) as [-> | _]; [| discriminate Hpre].
  destruct (IH s Hpre) as [t ->]. by exists t.
Qed.

Lemma length_append (s t : string) :
  String.length (s +:+ t) = (String.length s + String.length t)%nat.
Proof.
  induction s as [| c s IH]; [reflexivity |].
  change (String c s +:+ t) with (String c (s +:+ t)). cbn [String.length]. by rewrite IH.
Qed.

(** Every text has such a stripping, and [str.replace] computes it. *)
Lemma replace_stripped (old s : string) :
  old <> "" -> stripped old s (replace old "" s).
Proof.
  intros Hne. unfold replace.
  assert (Hall : forall n s, (String.length s <= n)%nat ->
                             stripped old s (replace_from old "" 0 s)).
  { clear s. induction n as [| n IH]; intros s Hlen.
    - destruct s; [constructor | cbn [String.length] in Hlen; lia].
    - destruct s as [| c s]; [constructor |].
      destruct (String.prefix old (String c s)) eqn:Hpre.
      + destruct (prefix_split old (String c s) Hpre) as [t Ht]. rewrite Ht.
        rewrite replace_leading by done. apply stripped_here. apply IH.
        apply (f_equal String.length) in Ht. rewrite length_append in Ht.
        destruct old; [done |]. cbn [String.length] in *. lia.
      + rewrite replace_from_keep by done. apply stripped_keep; [done |].
        apply IH. cbn [String.length] in Hlen. lia. }
  by apply (Hall (String.length s)).
Qed.

(** C7, as amended.  For each of the three providers the key of the
    outbound call is the caller's key when that is not empty, and
    otherwise the value of the provider's environment variable, when
    that is set and not empty; the caller's key being the inbound
    [Authorization] header with the occurrences of "Bearer " taken out
    (the empty text when there is no such header).  With a key, the
    Gemini client always sends one call, which carries the key; a
    chat-completion client sends one call, which carries the key,
    unless the request body cannot be translated, and then sends
    nothing.  When neither source gives a key the provider client
    raises [ValueError], which the handler answers with status 500, and
    nothing has been sent. *)
Theorem api_key_resolution
    (o : oracle) (req : request) (m : gmap string json) (provider : string) (w : world)
    (caller : string) :
  routed o req m provider ->
  supported provider ->
  stripped "Bearer " (default "" (headers req !! "Authorization")) caller ->
  let run := proxy_handler o req w in
  match key_by_priority caller (getenv o (env_key_of provider)) with
  | None =>
      outbound (snd run) = outbound w /\
      exists msg, fst run = on_exception (ValueError msg) /\ snd (fst run) = 500%Z
  | Some k =>
      (exists t c, outbound (snd run) = outbound w ++ [(t, c)] /\ carries_key provider c k) \/
      (provider <> "gemini" /\
       outbound (snd run) = outbound w /\
       exists e, openai_body (JObj (delete "provider" m)) = Raise e /\
                 fst run = on_exception e)
  end.
Proof.
  intros Hr Hsup Hcaller run. subst run.
  apply stripped_replace in Hcaller; [| done].
  change (replace "Bearer " "" (default "" (headers req !! "Authorization")))
    with (caller_key req) in Hcaller.
  subst caller. rewrite <- resolve_api_key_by_priority.
  destruct (supported_cases provider Hsup) as [-> | [cp Hcp]].
  - change (env_key_of "gemini") with "GEMINI_API_KEY".
    rewrite (proxy_handler_gemini o req m w Hr).
    destruct (resolve_api_key _ _) as [k |] eqn:Hkey.
    + left. rewrite (handle_gemini_request_call o _ _ k (arrived o w) Hkey). cbv zeta.
      exists (clock (after_limiter o (arrived o w)) + dispatch_lag o)%Q,
             (gemini_call (delete "provider" m) k).
      split; [| by eexists].
      destruct (answer o _) as [r |]; [destruct (is_http_error _) |];
        [reflexivity | | reflexivity].
      destruct (response_json r); reflexivity.
    + rewrite (handle_gemini_request_no_key o _ _ (arrived o w) Hkey).
      cbn [fst snd]. rewrite after_limiter_outbound. eauto.
  - assert (Henv : env_key_of provider = cp_env_key cp) by (unfold env_key_of; by rewrite Hcp).
    assert (Hng : String.eqb provider "gemini" = false)
      by (by destruct (chat_provider_of_cases provider cp Hcp) as [[-> _] | [-> _]]).
    rewrite Henv. rewrite (proxy_handler_chat o req m provider cp w Hr Hcp).
    destruct (resolve_api_key _ _) as [k |] eqn:Hkey.
    + destruct (openai_body (JObj (delete "provider" m))) as [payload | e] eqn:Hbody.
      * left.
        rewrite (handle_openai_compatible_call o _ _ k _ _ _ _ (arrived o w) _ Hkey Hbody).
        cbv zeta.
        exists (clock (arrived o w) + dispatch_lag o)%Q,
               (openai_call (cp_base_url cp) k (cp_extra_headers cp) payload).
        split.
        -- destruct (answer o _) as [r |]; [destruct (is_http_error _) |];
             [reflexivity | | reflexivity].
           destruct (response_json r) as [j |]; [| reflexivity].
           cbn [rbind]. destruct (transform_to_gemini_format j); reflexivity.
        -- unfold carries_key. rewrite Hng. cbn [openai_call post_headers].
           by apply (openai_headers_authorization provider).
      * right.
        rewrite (handle_openai_compatible_no_body o _ _ k _ _ _ _ (arrived o w) e
                   Hkey Hbody).
        split; [| by eauto].
        intros ->. by apply String.eqb_neq in Hng.
    + rewrite (handle_openai_compatible_no_key o _ _ _ _ _ _ (arrived o w) Hkey).
      cbn [fst snd]. eauto.
Qed.

Lemma llmost_request_routed (o : oracle) :
  routed o (posted (JObj llmost_body)) llmost_body "llmost".
Proof. by apply (routed_intro o _ llmost_body "contents" hi_turns "LLMost"). Qed.

Lemma stripped_bearer_abc : stripped "Bearer " "Bearer abc" "abc".
Proof.
  apply (stripped_here "Bearer " "abc" "abc").
  do 3 (apply stripped_keep; [reflexivity |]). apply stripped_end.
Qed.

(** Without a header and without [LLMOST_API_KEY], a request for
    [llmost] is answered 500 and sends nothing; with the header
    [Bearer abc] and no [OPENROUTER_API_KEY], the call for [openrouter]
    carries the key [abc]. *)
Lemma api_key_resolution_witness :
  (let run := proxy_handler quiet_oracle (posted (JObj llmost_body)) start_world in
   outbound (snd run) = outbound start_world /\
   exists msg, fst run = on_exception (ValueError msg) /\ snd (fst run) = 500%Z) /\
  (let run := proxy_handler quiet_oracle openrouter_request start_world in
   (exists t c, outbound (snd run) = outbound start_world ++ [(t, c)] /\
                carries_key "openrouter" c "abc") \/
   ("openrouter" <> "gemini" /\
    outbound (snd run) = outbound start_world /\
    exists e, openai_body (JObj (delete "provider" openrouter_body)) = Raise e /\
              fst run = on_exception e)).
Proof.
  split.
  - exact (api_key_resolution quiet_oracle (posted (JObj llmost_body)) llmost_body "llmost"
             start_world "" (llmost_request_routed _) (or_introl eq_refl)
             (stripped_end "Bearer ")).
  - exact (api_key_resolution quiet_oracle openrouter_request openrouter_body "openrouter"
             start_world "abc" (openrouter_request_routed _) (or_intror (or_introl eq_refl))
             stripped_bearer_abc).
Defined.

(** The call of the second request of the witness does go out. *)
Lemma openrouter_call_carries_abc :
  exists t c,
    outbound (snd (proxy_handler quiet_oracle openrouter_request start_world))
    = outbound start_world ++ [(t, c)] /\
    post_headers c !! "HTTP-Authorization" = Some "Bearer abc".
Proof. do 2 eexists. split; vm_compute; reflexivity. Qed.

(** It fails on the header [Bearer abcBearer def]: what follows the
    prefix is [abcBearer def], and the call carries [abcdef]. *)
Lemma inner_bearer_is_removed_too : ~ bearer_prefix_stripped.
Proof.
  intros Hclaim.
  assert (Hr : routed quiet_oracle twice_bearer_request hi_body "gemini")
    by (by apply (routed_intro _ _ hi_body "contents" hi_turns "gemini")).
  pose proof (Hclaim quiet_oracle twice_bearer_request hi_body "gemini" start_world
                "abcBearer def" (100 + 0 + 0)%Q
                (gemini_call (delete "provider" hi_body) "abcdef")
                Hr (or_intror (or_intror eq_refl))) as Hcarries.
  assert (Hsent : outbound (snd (proxy_handler quiet_oracle twice_bearer_request start_world))
                  = outbound start_world
                    ++ [((100 + 0 + 0)%Q, gemini_call (delete "provider" hi_body) "abcdef")])
    by (vm_compute; reflexivity).
  specialize (Hcarries eq_refl ltac:(discriminate) Hsent).
  destruct Hcarries as [model Hurl].
  apply (f_equal (fun u => u !! 3%nat)) in Hurl. vm_compute in Hurl. discriminate Hurl.
Qed.

(** * Further properties *)

(** ** The translators, on every input *)

Lemma mapM_inv {A B} (f : A -> result B) (l : list A) (bs : list B) :
  mapM f l = Ok bs -> Forall2 (fun a b => f a = Ok b) l bs.
Proof.
  revert bs. induction l as [| a l IH]; intros bs Hm; cbn [mapM] in Hm.
  - injection Hm as <-. constructor.
  - destruct (f a) as [b | e] eqn:Hfa; [| discriminate].
    destruct (mapM f l) as [bs' | e]; [| discriminate].
    injection Hm as <-. constructor; [done | by apply IH].
Qed.

Lemma mapM_raises {A B} (f : A -> result B) (l : list A) (e : exn) :
  mapM f l = Raise e -> exists a, a ∈ l /\ f a = Raise e.
Proof.
  induction l as [| a l IH]; cbn [mapM]; [discriminate |].
  destruct (f a) as [b | e'] eqn:Hfa.
  - destruct (mapM f l) as [bs | e']; [discriminate |].
    intros [= ->]. destruct (IH eq_refl) as (a' & Hin & Ha').
    exists a'. split; [by right | done].
  - intros [= ->]. exists a. split; [by left | done].
Qed.

(** The loop body gets through exactly the turns of the shape
    [turn_ok]. *)
Lemma openai_message_inv (turn msg : json) :
  openai_message turn = Ok msg -> turn_ok turn /\ msg = translated turn.
Proof.
  intros Hm.
  destruct turn as [| b | z | q | s | l | t]; try discriminate Hm.
  assert (Hshape : turn_ok (JObj t)).
  { exists t. split; [done |]. unfold openai_message in Hm. cbn [Py.get rbind] in Hm.
    destruct (t !! "parts") as [parts |]; [| by left].
    right. cbn [default from_option id] in Hm.
    destruct parts as [| b | z | q | s | l | d]; try discriminate Hm.
    - destruct s; discriminate Hm.
    - destruct l as [| part rest]; [discriminate Hm |].
      destruct part as [| b | z | q | s | l' | part]; try discriminate Hm.
      by exists part, rest. }
  split; [done |].
  rewrite (openai_message_ok (JObj t) Hshape) in Hm. by injection Hm.
Qed.

Lemma translated_chat_message (turn : json) :
  turn_ok turn -> chat_message (translated turn).
Proof.
  intros (t & -> & _). exists (turn_role t), (turn_text t). split; [done |].
  unfold turn_role.
  destruct (t !! "role") as [[| | | | s | |] |]; try by right.
  destruct (String.eqb_spec s "model") as [-> | Hne]; [by left |].
  right.
  repeat (destruct s as [| [[] [] [] [] [] [] [] []] s]; try reflexivity);
    by destruct Hne.
Qed.

Lemma mapM_openai_message_inv (turns msgs : list json) :
  mapM openai_message turns = Ok msgs ->
  Forall turn_ok turns /\ msgs = map translated turns.
Proof.
  intros Hm. apply mapM_inv in Hm.
  induction Hm as [| turn msg turns' msgs' Hturn _ [IHok IHeq]]; [by split |].
  apply openai_message_inv in Hturn as [Hshape ->].
  split; [by constructor | by rewrite IHeq].
Qed.

(** X1.  When [contents] is a list, [transform_to_openai_format] gives
    the translation of each turn, in the order of the turns, exactly
    when every turn is a dict whose [parts] is absent or a list that
    starts with a dict; on any other list of turns it raises. *)
Theorem transform_to_openai_format_succeeds_iff
    (m : gmap string json) (turns : list json) :
  m !! "contents" = Some (JList turns) ->
  (Forall turn_ok turns <-> transform_to_openai_format (JObj m) = Ok (map translated turns)) /\
  (~ Forall turn_ok turns <-> exists e, transform_to_openai_format (JObj m) = Raise e).
Proof.
  intros Hc.
  assert (Hrun : transform_to_openai_format (JObj m) = mapM openai_message turns).
  { unfold transform_to_openai_format. cbn [Py.get rbind]. by rewrite Hc. }
  assert (Hok : forall msgs, mapM openai_message turns = Ok msgs -> Forall turn_ok turns)
    by (intros msgs Hm; by apply mapM_openai_message_inv in Hm as [? _]).
  rewrite Hrun. split; split.
  - intros Hall. apply mapM_ok. eapply Forall_impl; [exact Hall |].
    intros turn Hturn. by apply openai_message_ok.
  - apply Hok.
  - intros Hnot. destruct (mapM openai_message turns) as [msgs | e] eqn:Hm; [| by eexists].
    destruct Hnot. by apply (Hok msgs).
  - intros [e He] Hall.
    assert (Hgood : mapM openai_message turns = Ok (map translated turns)).
    { apply mapM_ok. eapply Forall_impl; [exact Hall |].
      intros turn Hturn. by apply openai_message_ok. }
    congruence.
Qed.

Lemma transform_to_openai_format_succeeds_iff_witness :
  (Forall turn_ok [JObj {[ "role" := JStr "model" ]}; JObj ∅]
   <-> transform_to_openai_format
         (JObj {[ "contents" := JList [JObj {[ "role" := JStr "model" ]}; JObj ∅] ]})
       = Ok (map translated [JObj {[ "role" := JStr "model" ]}; JObj ∅])) /\
  (~ Forall turn_ok [JObj {[ "role" := JStr "model" ]}; JObj ∅]
   <-> exists e, transform_to_openai_format
                   (JObj {[ "contents" := JList [JObj {[ "role" := JStr "model" ]}; JObj ∅] ]})
                 = Raise e).
Proof.
  apply (transform_to_openai_format_succeeds_iff
           {[ "contents" := JList [JObj {[ "role" := JStr "model" ]}; JObj ∅] ]}
           [JObj {[ "role" := JStr "model" ]}; JObj ∅]).
  reflexivity.
Defined.

(** X2.  Whatever the input, every message [transform_to_openai_format]
    returns is a dict with exactly the keys [role] and [content], and
    its role is "assistant" or "user". *)
Theorem transform_to_openai_format_messages (client_data : json) (msgs : list json) :
  transform_to_openai_format client_data = Ok msgs ->
  Forall chat_message msgs.
Proof.
  unfold transform_to_openai_format. intros Hrun.
  destruct (Py.get client_data "contents" (JList [])) as [contents |]; [| discriminate].
  cbn [rbind] in Hrun.
  destruct (Py.iter contents) as [turns |]; [| discriminate].
  cbn [rbind] in Hrun. apply mapM_openai_message_inv in Hrun as [Hall ->].
  induction Hall as [| turn turns' Hturn _ IH]; constructor; [| done].
  by apply translated_chat_message.
Qed.

Lemma transform_to_openai_format_messages_witness :
  Forall chat_message [JObj {[ "role" := JStr "user"; "content" := JStr "hi" ]}].
Proof.
  apply (transform_to_openai_format_messages (JObj hi_body)).
  vm_compute. reflexivity.
Defined.

Lemma transform_to_gemini_format_succeeds_iff_aux
    (m choice message : gmap string json) :
  first_choice m = Some choice ->
  default (JObj ∅) (choice !! "message") = JObj message ->
  transform_to_gemini_format (JObj m)
  = Ok (gemini_candidate (default (JStr "") (message !! "content"))
                         (default (JStr "STOP") (choice !! "finish_reason"))).
Proof.
  unfold transform_to_gemini_format, first_choice. cbn [Py.get rbind].
  intros Hfirst Hmsg.
  assert (Hitem : Py.item0 (default (JList [JObj ∅]) (m !! "choices")) = Ok (JObj choice)).
  { destruct (m !! "choices") as [[| | | | | [| [] ?] |] |]; try discriminate Hfirst;
      by injection Hfirst as ->. }
  rewrite Hitem. cbn [Py.get rbind]. rewrite Hmsg. reflexivity.
Qed.

(** X3.  On a dict, [transform_to_gemini_format] succeeds exactly when
    [choices] is absent or a list that starts with a dict, and the
    [message] of that first choice is absent or a dict.  The result is
    then one candidate of role "model" whose text is the message's
    [content] as it is (the empty string when the key is absent) and
    whose finish reason is the choice's [finish_reason] as it is ("STOP"
    when the key is absent); later choices are ignored. *)
Theorem transform_to_gemini_format_succeeds_iff
    (m : gmap string json) (out : json) :
  transform_to_gemini_format (JObj m) = Ok out <->
  exists choice message,
    first_choice m = Some choice /\
    default (JObj ∅) (choice !! "message") = JObj message /\
    out = gemini_candidate (default (JStr "") (message !! "content"))
                           (default (JStr "STOP") (choice !! "finish_reason")).
Proof.
  unfold transform_to_gemini_format, first_choice. cbn [Py.get rbind]. split.
  - intros Hrun.
    assert (Hchoice : exists choice,
               Py.item0 (default (JList [JObj ∅]) (m !! "choices")) = Ok (JObj choice) /\
               match m !! "choices" with
               | None => Some ∅
               | Some (JList (JObj c :: _)) => Some c
               | _ => None
               end = Some choice).
    { destruct (m !! "choices") as [choices |]; [| by exists ∅].
      cbn [default from_option id] in *.
      destruct choices as [| b | z | q | s | l | d]; try discriminate Hrun.
      - destruct s; discriminate Hrun.
      - destruct l as [| c rest]; [discriminate Hrun |].
        destruct c as [| b | z | q | s | l' | c]; try discriminate Hrun.
        by exists c. }
    destruct Hchoice as (choice & Hitem & Hfirst). rewrite Hitem in Hrun.
    cbn [Py.get rbind] in Hrun.
    destruct (default (JObj ∅) (choice !! "message")) as [| b | z | q | s | l | message]
      eqn:Hmsg; try discriminate Hrun.
    cbn [Py.get rbind] in Hrun. injection Hrun as <-.
    exists choice, message. by rewrite Hfirst.
  - intros (choice & message & Hfirst & Hmsg & ->).
    by apply (transform_to_gemini_format_succeeds_iff_aux m choice message).
Qed.

(** ** What the handlers raise *)

Lemma on_exception_internal (e : exn) :
  internal e ->
  on_exception e = (error_body ("Proxy internal error: " +:+ str_exn e), 500%Z).
Proof. by destruct e. Qed.

Lemma rbind_internal {A B} (r : result A) (k : A -> result B) (e : exn) :
  (forall e', r = Raise e' -> internal e') ->
  (forall a e', k a = Raise e' -> internal e') ->
  rbind r k = Raise e -> internal e.
Proof. intros Hr Hk. destruct r as [a | e']; cbn [rbind]; [apply Hk | intros [= <-]; by apply Hr]. Qed.

Lemma get_internal v k d e : Py.get v k d = Raise e -> internal e.
Proof. destruct v; intros [= <-]; exact I. Qed.

Lemma item0_internal v e : Py.item0 v = Raise e -> internal e.
Proof. destruct v as [| | | | [] | [] |]; intros [= <-]; exact I. Qed.

Lemma iter_internal v e : Py.iter v = Raise e -> internal e.
Proof. destruct v; intros [= <-]; exact I. Qed.

Lemma response_json_internal r e : response_json r = Raise e -> internal e.
Proof. unfold response_json. destruct (decoded r); intros [= <-]; exact I. Qed.

Ltac internal_steps :=
  repeat first
    [ apply rbind_internal; [intros ? | intros ? ?]
    | apply get_internal | apply item0_internal | apply iter_internal
    | discriminate ].

Lemma openai_message_internal turn e : openai_message turn = Raise e -> internal e.
Proof. unfold openai_message. internal_steps. Qed.

Lemma transform_to_openai_format_internal cd e :
  transform_to_openai_format cd = Raise e -> internal e.
Proof.
  unfold transform_to_openai_format. internal_steps.
  intros Hm. apply mapM_raises in Hm as (turn & _ & Hturn).
  by apply openai_message_internal in Hturn.
Qed.

Lemma openai_body_internal cd e : openai_body cd = Raise e -> internal e.
Proof.
  unfold openai_body. apply rbind_internal; [apply transform_to_openai_format_internal |].
  intros msgs e'. unfold openai_payload. internal_steps.
Qed.

Lemma transform_to_gemini_format_internal v e :
  transform_to_gemini_format v = Raise e -> internal e.
Proof. unfold transform_to_gemini_format. internal_steps. Qed.

(** ** Every run of [proxy_handler], case by case *)

(** A request is either turned down at once, with a 400 or a 500 and
    without anything else happening, or routed to one of the three
    providers. *)
Lemma proxy_handler_cases (o : oracle) (req : request) (w : world) :
  (exists msg code,
      proxy_handler o req w = ((error_body msg, code), arrived o w) /\
      (code = 400 \/ code = 500)%Z) \/
  (exists m provider, routed o req m provider /\ supported provider).
Proof.
  rewrite proxy_handler_route.
  destruct (body req) as [v | why |] eqn:Hbody.
  - destruct (Py.truthy v) eqn:Htruthy.
    + destruct v as [| b | z | q | s | l | m];
        try (left; unfold route, get_json; rewrite Hbody; unfold bind, lift;
             rewrite Htruthy; cbn [negb Py.pop on_exception]; solve [eauto]).
      assert (Hne : m <> ∅).
      { intros ->. cbn in Htruthy. by rewrite bool_decide_true in Htruthy. }
      destruct (default (JStr "gemini") (m !! "provider")) as [| b | z | q | p | l | m']
        eqn:Hp;
        try (left; unfold route, get_json; rewrite Hbody; unfold bind, lift;
             rewrite Htruthy; cbn [negb Py.pop]; rewrite Hp;
             cbn [py_lower on_exception]; solve [eauto]).
      assert (Hr : routed o req m (lower o p)) by (split; [done |]; split; [done |]; eauto).
      destruct (String.eqb_spec (lower o p) "llmost") as [Hp1 | Hn1];
        [right; exists m, (lower o p); split; [done | by left] |].
      destruct (String.eqb_spec (lower o p) "openrouter") as [Hp2 | Hn2];
        [right; exists m, (lower o p); split; [done | by right; left] |].
      destruct (String.eqb_spec (lower o p) "gemini") as [Hp3 | Hn3];
        [right; exists m, (lower o p); split; [done | by right; right] |].
      left. rewrite <- proxy_handler_route.
      rewrite (unsupported_provider_rejected o req w m (lower o p) Hr)
        by (unfold supported; tauto).
      eauto.
    + left. rewrite (route_falsy o req (arrived o w) v Hbody Htruthy). eauto.
  - left. unfold route, get_json. rewrite Hbody. unfold bind, lift.
    cbn [on_exception]. eauto.
  - left. unfold route, get_json. rewrite Hbody. unfold bind, lift.
    cbn [on_exception]. eauto.
Qed.

Ltac handler_cases o req w :=
  let msg := fresh "msg" in let code := fresh "code" in
  let Hrun := fresh "Hrun" in let Hcode := fresh "Hcode" in
  let m := fresh "m" in let provider := fresh "provider" in
  let Hr := fresh "Hr" in let Hsup := fresh "Hsup" in
  let cp := fresh "cp" in let Hcp := fresh "Hcp" in
  let k := fresh "k" in let Hkey := fresh "Hkey" in
  let r := fresh "r" in let Hans := fresh "Hans" in let Herr := fresh "Herr" in
  let v := fresh "v" in let Hdec := fresh "Hdec" in
  let payload := fresh "payload" in let e := fresh "e" in let Hbody := fresh "Hbody" in
  let out := fresh "out" in let Htr := fresh "Htr" in
  destruct (proxy_handler_cases o req w)
    as [(msg & code & Hrun & Hcode) | (m & provider & Hr & Hsup)];
  [ rewrite ?Hrun
  | destruct (supported_cases provider Hsup) as [-> | [cp Hcp]];
    [ rewrite ?(proxy_handler_gemini o req m w Hr);
      destruct (resolve_api_key (caller_key req) (getenv o "GEMINI_API_KEY"))
        as [k |] eqn:Hkey;
      [ rewrite ?(handle_gemini_request_call o _ _ k (arrived o w) Hkey); cbv zeta;
        destruct (answer o (gemini_call (delete "provider" m) k)) as [r | msg] eqn:Hans;
        [ destruct (is_http_error (status_code r)) eqn:Herr;
          [ | unfold response_json; destruct (decoded r) as [v | msg] eqn:Hdec ]
        | ]
      | rewrite ?(handle_gemini_request_no_key o _ _ (arrived o w) Hkey) ]
    | rewrite ?(proxy_handler_chat o req m provider cp w Hr Hcp);
      destruct (resolve_api_key (caller_key req) (getenv o (cp_env_key cp)))
        as [k |] eqn:Hkey;
      [ destruct (openai_body (JObj (delete "provider" m))) as [payload | e] eqn:Hbody;
        [ rewrite ?(handle_openai_compatible_call o _ _ k _ _ _ _ (arrived o w) _ Hkey Hbody);
          cbv zeta;
          destruct (answer o (openai_call (cp_base_url cp) k (cp_extra_headers cp) payload))
            as [r | msg] eqn:Hans;
          [ destruct (is_http_error (status_code r)) eqn:Herr;
            [ | unfold response_json; destruct (decoded r) as [v | msg] eqn:Hdec;
                cbn [rbind];
                [ destruct (transform_to_gemini_format v) as [out | e] eqn:Htr | ] ]
          | ]
        | rewrite ?(handle_openai_compatible_no_body o _ _ k _ _ _ _ (arrived o w) e
                      Hkey Hbody) ]
      | rewrite ?(handle_openai_compatible_no_key o _ _ _ _ _ _ (arrived o w) Hkey) ] ] ];
  cbn [fst snd clock last_gemini_request_time outbound arrived on_exception].

(** X4.  A request makes at most one outbound call, and the log of
    calls made before is kept as it is: there is no retry. *)
Theorem at_most_one_call_per_request (o : oracle) (req : request) (w : world) :
  outbound (snd (proxy_handler o req w)) = outbound w \/
  exists t c, outbound (snd (proxy_handler o req w)) = outbound w ++ [(t, c)].
Proof.
  handler_cases o req w; try (by left); try (right; by eauto).
  left. by rewrite after_limiter_outbound.
Qed.

Lemma is_http_error_range (status : Z) :
  is_http_error status = true <-> (400 <= status < 600)%Z.
Proof.
  unfold is_http_error. rewrite andb_true_iff, Z.leb_le, Z.ltb_lt. tauto.
Qed.

(** X5.  Whatever the request and whatever the upstream does, the
    status of the answer is 200 or lies in 400..599: every exception is
    turned into an error answer. *)
Theorem answer_status_is_200_or_error (o : oracle) (req : request) (w : world) :
  let status := snd (fst (proxy_handler o req w)) in
  (status = 200 \/ 400 <= status < 600)%Z.
Proof.
  cbv zeta. handler_cases o req w;
    try (left; reflexivity); try (right; cbn; lia).
  - right. apply is_http_error_range in Herr. by destruct (decoded r).
  - right. apply is_http_error_range in Herr. by destruct (decoded r).
  - rewrite (on_exception_internal e) by (by eapply transform_to_gemini_format_internal).
    right. cbn. lia.
  - rewrite (on_exception_internal e) by (by eapply openai_body_internal).
    right. cbn. lia.
Qed.

(** X6.  An answer given without any outbound call is an error answer:
    its body is [{"error": {"message": ...}}] and its status is 400 or
    500.  So a 200 is only ever answered after a call to the upstream. *)
Theorem no_call_means_error_answer (o : oracle) (req : request) (w : world) :
  outbound (snd (proxy_handler o req w)) = outbound w ->
  exists msg code,
    fst (proxy_handler o req w) = (error_body msg, code) /\ (code = 400 \/ code = 500)%Z.
Proof.
  handler_cases o req w; intros Hquiet;
    try (symmetry in Hquiet; by apply sent_nothing_sent_one in Hquiet);
    try (by eauto).
  rewrite (on_exception_internal e) by (by eapply openai_body_internal). eauto.
Qed.

Lemma no_call_means_error_answer_witness :
  exists msg code,
    fst (proxy_handler quiet_oracle (posted (JObj hi_body)) start_world) = (error_body msg, code) /\
    (code = 400 \/ code = 500)%Z.
Proof.
  apply (no_call_means_error_answer quiet_oracle (posted (JObj hi_body)) start_world).
  reflexivity.
Defined.

Lemma after_limiter_later o w :
  (0 <= oversleep o -> clock w <= clock (after_limiter o w))%Q.
Proof.
  intros Hover. unfold after_limiter.
  destruct (Qlt_le_dec _ _) as [Hlt | Hge]; cbn [clock]; lra.
Qed.

(** X7.  The clock never runs back over a request, and the limiter
    instant is never ahead of the clock: if [last_gemini_request_time]
    is at most the clock before a request, it is so after it, and it
    has not decreased. *)
Theorem limiter_instant_behind_clock (o : oracle) (req : request) (w : world) :
  oracle_ok o ->
  (last_gemini_request_time w <= clock w)%Q ->
  let w' := snd (proxy_handler o req w) in
  (clock w <= clock w' /\
   last_gemini_request_time w <= last_gemini_request_time w' /\
   last_gemini_request_time w' <= clock w')%Q.
Proof.
  intros (Ha & Hs & Hd & Hl & Hr) Hinv. cbv zeta.
  pose proof (after_limiter_later o (arrived o w) Hs) as Hlater.
  cbn [arrived clock] in Hlater.
  handler_cases o req w; try rewrite after_limiter_last;
    cbn [arrived clock last_gemini_request_time]; repeat split; lra.
Qed.

Lemma limiter_instant_behind_clock_witness :
  let w' := snd (proxy_handler (answering 200 "{}" (Decodes (JObj ∅)))
                   (posted (JObj hi_body)) start_world) in
  (clock start_world <= clock w' /\
   last_gemini_request_time start_world <= last_gemini_request_time w' /\
   last_gemini_request_time w' <= clock w')%Q.
Proof.
  apply (limiter_instant_behind_clock (answering 200 "{}" (Decodes (JObj ∅)))
           (posted (JObj hi_body)) start_world).
  - apply answering_ok.
  - cbn. lra.
Defined.

(** ** The limiter and the providers *)

(** X8.  A request for [openrouter] or [llmost] is not rate limited:
    its call, if one goes out, goes out without any sleep, however
    recent the last Gemini call is, and [last_gemini_request_time] is
    left as it is. *)
Theorem chat_providers_not_rate_limited
    (o : oracle) (req : request) (m : gmap string json) (provider : string)
    (cp : chat_provider) (w : world) :
  routed o req m provider ->
  chat_provider_of provider = Some cp ->
  let w' := snd (proxy_handler o req w) in
  last_gemini_request_time w' = last_gemini_request_time w /\
  (forall t c, outbound w' = outbound w ++ [(t, c)] ->
     t = (clock w + arrival o + dispatch_lag o)%Q /\ clock w' = (t + latency o)%Q) /\
  (outbound w' = outbound w -> clock w' = (clock w + arrival o)%Q).
Proof.
  intros Hr Hcp. cbv zeta. rewrite (proxy_handler_chat o req m provider cp w Hr Hcp).
  destruct (resolve_api_key (caller_key req) (getenv o (cp_env_key cp))) as [k |] eqn:Hkey.
  - destruct (openai_body (JObj (delete "provider" m))) as [payload | e] eqn:Hbody.
    + rewrite (handle_openai_compatible_call o _ _ k _ _ _ _ (arrived o w) _ Hkey Hbody).
      cbv zeta.
      destruct (match answer o _ with Replied _ => _ | Unreachable _ => _ end) as [d | e];
        cbn [fst snd clock last_gemini_request_time outbound arrived];
        (split; [done |]; split;
         [intros t c [= <- _]%sent_one_inj; done
         | intros Hq; symmetry in Hq; by apply sent_nothing_sent_one in Hq]).
    + rewrite (handle_openai_compatible_no_body o _ _ k _ _ _ _ (arrived o w) e Hkey Hbody).
      cbn [snd]. split; [done |]. split; [| done].
      intros t c Hs. by apply sent_nothing_sent_one in Hs.
  - rewrite (handle_openai_compatible_no_key o _ _ _ _ _ _ (arrived o w) Hkey).
    cbn [snd]. split; [done |]. split; [| done].
    intros t c Hs. by apply sent_nothing_sent_one in Hs.
Qed.

Lemma chat_providers_not_rate_limited_witness :
  let w := {| clock := 100; last_gemini_request_time := 99; outbound := [] |} in
  let w' := snd (proxy_handler quiet_oracle openrouter_request w) in
  last_gemini_request_time w' = 99%Q /\
  (forall t c, outbound w' = outbound w ++ [(t, c)] ->
     t = (clock w + arrival quiet_oracle + dispatch_lag quiet_oracle)%Q /\
     clock w' = (t + latency quiet_oracle)%Q) /\
  (outbound w' = outbound w -> clock w' = (clock w + arrival quiet_oracle)%Q).
Proof.
  intros w.
  exact (chat_providers_not_rate_limited quiet_oracle openrouter_request openrouter_body
           "openrouter" openrouter_config w (openrouter_request_routed _) eq_refl).
Defined.

(** X9.  A Gemini request for which no key is found is answered 500
    without any call, but only after the limiter's sleep: when less
    than [GEMINI_REQUEST_DELAY] has passed since the recorded instant,
    the handler first sleeps until that delay is over. *)
Theorem gemini_without_key_still_waits
    (o : oracle) (req : request) (m : gmap string json) (w : world) :
  routed o req m "gemini" ->
  resolve_api_key (caller_key req) (getenv o "GEMINI_API_KEY") = None ->
  (clock w + arrival o - last_gemini_request_time w < GEMINI_REQUEST_DELAY)%Q ->
  let run := proxy_handler o req w in
  fst run = (error_body ("Proxy internal error: " +:+
               "Gemini API key is missing. Not found in client request or on server."),
             500%Z) /\
  outbound (snd run) = outbound w /\
  last_gemini_request_time (snd run) = last_gemini_request_time w /\
  (clock (snd run) == last_gemini_request_time w + GEMINI_REQUEST_DELAY + oversleep o)%Q.
Proof.
  intros Hr Hkey Hearly. cbv zeta. rewrite (proxy_handler_gemini o req m w Hr).
  rewrite (handle_gemini_request_no_key o _ _ (arrived o w) Hkey).
  cbn [fst snd on_exception str_exn].
  rewrite after_limiter_outbound, after_limiter_last.
  split; [done |]. split; [done |]. split; [done |].
  unfold after_limiter. cbn [arrived clock last_gemini_request_time].
  destruct (Qlt_le_dec _ _) as [Hlt | Hge]; cbn [clock]; lra.
Qed.

Lemma gemini_without_key_still_waits_witness :
  let w := {| clock := 100; last_gemini_request_time := 99; outbound := [] |} in
  let run := proxy_handler quiet_oracle (posted (JObj hi_body)) w in
  fst run = (error_body ("Proxy internal error: " +:+
               "Gemini API key is missing. Not found in client request or on server."),
             500%Z) /\
  outbound (snd run) = outbound w /\
  last_gemini_request_time (snd run) = last_gemini_request_time w /\
  (clock (snd run) == last_gemini_request_time w + GEMINI_REQUEST_DELAY
                      + oversleep quiet_oracle)%Q.
Proof.
  intros w.
  apply (gemini_without_key_still_waits quiet_oracle (posted (JObj hi_body)) hi_body w).
  - apply posted_hi_routed.
  - reflexivity.
  - unfold GEMINI_REQUEST_DELAY. cbn. lra.
Defined.

(** ** Routing *)

Lemma routed_insert_provider (o : oracle) (hdrs : gmap string string) (m : gmap string json)
    (p : string) :
  routed o {| body := BodyJson (JObj (<["provider" := JStr p]> m)); headers := hdrs |}
         (<["provider" := JStr p]> m) (lower o p).
Proof.
  split; [done |]. split; [apply insert_non_empty |].
  exists p. by rewrite lookup_insert_eq.
Qed.

(** X10.  The provider name is matched without regard to case: two
    requests that differ only in the case of the letters of [provider]
    are handled alike. *)
Theorem provider_name_ignores_case
    (o : oracle) (hdrs : gmap string string) (m : gmap string json) (p1 p2 : string)
    (w : world) :
  lower o p1 = lower o p2 ->
  proxy_handler o {| body := BodyJson (JObj (<["provider" := JStr p1]> m)); headers := hdrs |} w
  = proxy_handler o {| body := BodyJson (JObj (<["provider" := JStr p2]> m)); headers := hdrs |} w.
Proof.
  intros Hlow.
  rewrite (proxy_handler_routed o _ _ _ w (routed_insert_provider o hdrs m p1)).
  rewrite (proxy_handler_routed o _ _ _ w (routed_insert_provider o hdrs m p2)).
  rewrite !delete_insert_eq, Hlow. reflexivity.
Qed.

Lemma provider_name_ignores_case_witness :
  proxy_handler quiet_oracle
    {| body := BodyJson (JObj (<["provider" := JStr "OpenRouter"]> hi_body)); headers := ∅ |}
    start_world
  = proxy_handler quiet_oracle
      {| body := BodyJson (JObj (<["provider" := JStr "OPENROUTER"]> hi_body)); headers := ∅ |}
      start_world.
Proof.
  apply (provider_name_ignores_case quiet_oracle ∅ hi_body "OpenRouter" "OPENROUTER"
           start_world).
  reflexivity.
Defined.

(** X11.  A request without a [provider] field is handled as a request
    for "gemini". *)
Theorem provider_defaults_to_gemini
    (o : oracle) (hdrs : gmap string string) (m : gmap string json) (w : world) :
  m <> ∅ ->
  m !! "provider" = None ->
  proxy_handler o {| body := BodyJson (JObj m); headers := hdrs |} w
  = proxy_handler o {| body := BodyJson (JObj (<["provider" := JStr "gemini"]> m));
                       headers := hdrs |} w.
Proof.
  intros Hne Hnone.
  assert (Hr : routed o {| body := BodyJson (JObj m); headers := hdrs |} m "gemini").
  { split; [done |]. split; [done |]. exists "gemini". by rewrite Hnone. }
  rewrite (proxy_handler_routed o _ _ _ w Hr).
  rewrite (proxy_handler_routed o _ _ _ w (routed_insert_provider o hdrs m "gemini")).
  rewrite delete_insert_eq. reflexivity.
Qed.

Lemma provider_defaults_to_gemini_witness :
  proxy_handler quiet_oracle {| body := BodyJson (JObj hi_body); headers := ∅ |} start_world
  = proxy_handler quiet_oracle
      {| body := BodyJson (JObj (<["provider" := JStr "gemini"]> hi_body)); headers := ∅ |}
      start_world.
Proof.
  apply (provider_defaults_to_gemini quiet_oracle ∅ hi_body start_world).
  - intros H. apply (f_equal (fun d : gmap string json => d !! "contents")) in H.
    vm_compute in H. discriminate H.
  - reflexivity.
Defined.

(** ** Malformed requests *)

(** X12.  A body that decodes to a truthy value that is not an object
    (a non-empty list or string, a number other than zero, [true]) is
    answered 500, not 400: [client_data.pop] fails on it.  Nothing is
    sent and the limiter is not touched. *)
Theorem body_not_an_object_is_answered_500
    (o : oracle) (req : request) (w : world) (v : json) :
  body req = BodyJson v ->
  Py.truthy v = true ->
  (forall m, v <> JObj m) ->
  exists msg,
    proxy_handler o req w
    = ((error_body ("Proxy internal error: " +:+ msg), 500%Z), arrived o w).
Proof.
  intros Hbody Htruthy Hnd. rewrite proxy_handler_route. unfold route, get_json.
  rewrite Hbody. unfold bind, lift. rewrite Htruthy. cbn [negb].
  destruct v as [| b | z | q | s | l | m]; try (eexists; reflexivity).
  by destruct (Hnd m).
Qed.

Lemma body_not_an_object_is_answered_500_witness :
  exists msg,
    proxy_handler quiet_oracle (posted (JList [JInt 1])) start_world
    = ((error_body ("Proxy internal error: " +:+ msg), 500%Z),
       arrived quiet_oracle start_world).
Proof.
  apply (body_not_an_object_is_answered_500 quiet_oracle (posted (JList [JInt 1]))
           start_world (JList [JInt 1])).
  - reflexivity.
  - reflexivity.
  - intros m. discriminate.
Defined.

(** X13.  A request whose [provider] is not a string (a number, null, a
    list, ...) is answered 500: [.lower()] fails on it.  Nothing is
    sent. *)
Theorem provider_not_a_string_is_answered_500
    (o : oracle) (req : request) (w : world) (m : gmap string json) (p : json) :
  body req = BodyJson (JObj m) ->
  m !! "provider" = Some p ->
  (forall s, p <> JStr s) ->
  proxy_handler o req w
  = ((error_body ("Proxy internal error: " +:+
                  "'" +:+ Py.type_name p +:+ "' object has no attribute 'lower'"), 500%Z),
     arrived o w).
Proof.
  intros Hbody Hp Hns. rewrite proxy_handler_route. unfold route, get_json.
  rewrite Hbody. unfold bind, lift.
  assert (Htruthy : Py.truthy (JObj m) = true).
  { cbn [Py.truthy]. rewrite bool_decide_false; [done |].
    intros ->. by rewrite lookup_empty in Hp. }
  rewrite Htruthy. cbn [negb Py.pop]. rewrite Hp. cbn [default from_option id].
  destruct p as [| b | z | q | s | l | d]; try reflexivity.
  by destruct (Hns s).
Qed.

Lemma provider_not_a_string_is_answered_500_witness :
  proxy_handler quiet_oracle (posted (JObj {[ "provider" := JInt 5 ]})) start_world
  = ((error_body "Proxy internal error: 'int' object has no attribute 'lower'", 500%Z),
     arrived quiet_oracle start_world).
Proof.
  apply (provider_not_a_string_is_answered_500 quiet_oracle
           (posted (JObj {[ "provider" := JInt 5 ]})) start_world
           {[ "provider" := JInt 5 ]} (JInt 5)).
  - reflexivity.
  - reflexivity.
  - intros s. discriminate.
Defined.

(** X14.  For [openrouter] and [llmost], a [generationConfig] that is
    present but not an object (null, a number, ...) is not defaulted:
    the request is answered 500 and nothing is sent. *)
Theorem generation_config_not_an_object_is_answered_500
    (o : oracle) (req : request) (m : gmap string json) (provider : string)
    (cp : chat_provider) (gc : json) (w : world) :
  routed o req m provider ->
  chat_provider_of provider = Some cp ->
  m !! "generationConfig" = Some gc ->
  (forall g, gc <> JObj g) ->
  snd (fst (proxy_handler o req w)) = 500%Z /\
  snd (proxy_handler o req w) = arrived o w.
Proof.
  intros Hr Hcp Hgc Hnd.
  assert (Hbody : exists e, openai_body (JObj (delete "provider" m)) = Raise e).
  { unfold openai_body.
    destruct (transform_to_openai_format _) as [msgs | e]; [| by eexists].
    cbn [rbind]. unfold openai_payload. cbn [Py.get rbind].
    rewrite !lookup_delete_ne by done. rewrite Hgc. cbn [default from_option id].
    destruct gc as [| b | z | q | s | l | g]; try (eexists; reflexivity).
    by destruct (Hnd g). }
  destruct Hbody as [e Hbody].
  rewrite (proxy_handler_chat o req m provider cp w Hr Hcp).
  destruct (resolve_api_key (caller_key req) (getenv o (cp_env_key cp))) as [k |] eqn:Hkey.
  - rewrite (handle_openai_compatible_no_body o _ _ k _ _ _ _ (arrived o w) e Hkey Hbody).
    rewrite (on_exception_internal e) by (by eapply openai_body_internal). done.
  - by rewrite (handle_openai_compatible_no_key o _ _ _ _ _ _ (arrived o w) Hkey).
Qed.

Lemma generation_config_not_an_object_is_answered_500_witness :
  let req := {| body := BodyJson (JObj (<["generationConfig" := JNull]> openrouter_body));
                headers := {[ "Authorization" := "Bearer abc" ]} |} in
  snd (fst (proxy_handler quiet_oracle req start_world)) = 500%Z /\
  snd (proxy_handler quiet_oracle req start_world) = arrived quiet_oracle start_world.
Proof.
  intros req.
  apply (generation_config_not_an_object_is_answered_500 quiet_oracle req
           (<["generationConfig" := JNull]> openrouter_body) "openrouter" openrouter_config
           JNull start_world).
  - by apply (routed_intro _ req _ "contents" hi_turns "openrouter").
  - reflexivity.
  - reflexivity.
  - intros g. discriminate.
Defined.

(** ** What becomes of the upstream's reply *)

(** X15.  When the outbound call fails in transport (connection error,
    timeout), whatever the provider, the answer is a 500 whose message
    is "Proxy internal error: " followed by the failure's text, and
    [last_gemini_request_time] is left as it is. *)
Theorem transport_failure_is_answered_500
    (o : oracle) (req : request) (w : world) (t : Q) (c : post_call) (msg : string) :
  outbound (snd (proxy_handler o req w)) = outbound w ++ [(t, c)] ->
  answer o c = Unreachable msg ->
  fst (proxy_handler o req w) = (error_body ("Proxy internal error: " +:+ msg), 500%Z) /\
  last_gemini_request_time (snd (proxy_handler o req w)) = last_gemini_request_time w.
Proof.
  handler_cases o req w; intros Hsent Hfail;
    try (by apply sent_nothing_sent_one in Hsent);
    try (rewrite after_limiter_outbound in Hsent; by apply sent_nothing_sent_one in Hsent);
    apply sent_one_inj in Hsent; injection Hsent as _ <-;
    rewrite Hans in Hfail; try discriminate Hfail; injection Hfail as ->; done.
Qed.

Lemma transport_failure_is_answered_500_witness :
  let run := proxy_handler quiet_oracle openrouter_request start_world in
  fst run = (error_body ("Proxy internal error: " +:+ "connection refused"), 500%Z) /\
  last_gemini_request_time (snd run) = last_gemini_request_time start_world.
Proof.
  apply (transport_failure_is_answered_500 quiet_oracle openrouter_request start_world
           (100 + 0 + 0)%Q
           (openai_call "https://openrouter.ai/api/v1" "abc" (cp_extra_headers openrouter_config)
              (chat_payload openrouter_body ∅
                 [JObj {[ "role" := JStr "user"; "content" := JStr "hi" ]}]))).
  - vm_compute. reflexivity.
  - reflexivity.
Defined.

(** X16.  When the Gemini call comes back without an HTTP error, the
    limiter instant is set to the clock reading taken after the reply,
    also when the reply's body then fails to decode: such a reply is
    answered 500, yet it counts for the limiter.  A body that decodes
    is answered as it is, with status 200. *)
Theorem gemini_reply_recorded_before_decoding
    (o : oracle) (req : request) (m : gmap string json) (w : world)
    (t : Q) (c : post_call) (r : response) :
  routed o req m "gemini" ->
  outbound (snd (proxy_handler o req w)) = outbound w ++ [(t, c)] ->
  answer o c = Replied r ->
  is_http_error (status_code r) = false ->
  let run := proxy_handler o req w in
  last_gemini_request_time (snd run) = (t + latency o + record_lag o)%Q /\
  clock (snd run) = last_gemini_request_time (snd run) /\
  fst run = match decoded r with
            | Decodes v => (v, 200%Z)
            | Undecodable why => (error_body ("Proxy internal error: " +:+ why), 500%Z)
            end.
Proof.
  intros Hr Hsent Hans Hok. cbv zeta.
  rewrite (proxy_handler_gemini o req m w Hr) in *.
  assert (Hsent' : outbound (snd (handle_gemini_request o (JObj (delete "provider" m))
                                    (caller_key req) (arrived o w)))
                   = outbound (arrived o w) ++ [(t, c)]).
  { destruct (handle_gemini_request _ _ _ _) as [[d | e] w']; exact Hsent. }
  apply handle_gemini_request_sent in Hsent' as (k & _ & _ & _ & Hrun).
  rewrite Hans, Hok in Hrun. rewrite Hrun. unfold response_json.
  by destruct (decoded r).
Qed.

Lemma gemini_reply_recorded_before_decoding_witness :
  let o := answering 200 "<html>" (Undecodable "Expecting value") in
  let run := proxy_handler o (posted (JObj hi_body)) start_world in
  last_gemini_request_time (snd run) = (100 + 0 + 0 + latency o + record_lag o)%Q /\
  clock (snd run) = last_gemini_request_time (snd run) /\
  fst run = (error_body ("Proxy internal error: " +:+ "Expecting value"), 500%Z).
Proof.
  intros o.
  apply (gemini_reply_recorded_before_decoding o (posted (JObj hi_body)) hi_body start_world
           (100 + 0 + 0)%Q (gemini_call (delete "provider" hi_body) "server-gemini-key")
           {| status_code := 200; text := "<html>"; decoded := Undecodable "Expecting value" |}).
  - apply posted_hi_routed.
  - vm_compute. reflexivity.
  - reflexivity.
  - reflexivity.
Defined.

(** X17.  A chat-completions reply that comes back without an HTTP
    error and decodes to an object whose first choice has a message is
    answered with status 200 and one candidate of role "model": its
    text is the [content] of the first choice's message and its finish
    reason that choice's [finish_reason], with "" and "STOP" for the
    keys that are absent. *)
Theorem chat_reply_translated
    (o : oracle) (req : request) (m : gmap string json) (provider : string)
    (cp : chat_provider) (w : world) (t : Q) (c : post_call) (r : response)
    (reply choice message : gmap string json) :
  routed o req m provider ->
  chat_provider_of provider = Some cp ->
  outbound (snd (proxy_handler o req w)) = outbound w ++ [(t, c)] ->
  answer o c = Replied r ->
  is_http_error (status_code r) = false ->
  decoded r = Decodes (JObj reply) ->
  first_choice reply = Some choice ->
  default (JObj ∅) (choice !! "message") = JObj message ->
  fst (proxy_handler o req w)
  = (gemini_candidate (default (JStr "") (message !! "content"))
                      (default (JStr "STOP") (choice !! "finish_reason")),
     200%Z).
Proof.
  intros Hr Hcp Hsent Hans Hok Hdec Hfirst Hmsg.
  assert (Htr : transform_to_gemini_format (JObj reply)
                = Ok (gemini_candidate (default (JStr "") (message !! "content"))
                                       (default (JStr "STOP") (choice !! "finish_reason"))))
    by (apply transform_to_gemini_format_succeeds_iff_aux; eauto).
  rewrite (proxy_handler_chat o req m provider cp w Hr Hcp) in *.
  assert (Hsent' : outbound (snd (handle_openai_compatible o (JObj (delete "provider" m))
                                    (caller_key req) (cp_name cp) (cp_base_url cp)
                                    (cp_env_key cp) (cp_extra_headers cp) (arrived o w)))
                   = outbound (arrived o w) ++ [(t, c)]).
  { destruct (handle_openai_compatible _ _ _ _ _ _ _ _) as [[d | e] w']; exact Hsent. }
  apply handle_openai_compatible_sent in Hsent' as (k & payload & _ & _ & _ & _ & Hrun).
  rewrite Hans, Hok in Hrun. unfold response_json in Hrun. rewrite Hdec in Hrun.
  cbn [rbind] in Hrun. rewrite Htr in Hrun.
  destruct (handle_openai_compatible _ _ _ _ _ _ _ _) as [res w']. cbn [fst] in Hrun.
  subst res. reflexivity.
Qed.

Lemma chat_reply_translated_witness :
  let reply : gmap string json :=
    {[ "choices" := JList [JObj {[ "message" := JObj {[ "content" := JStr "hello" ]};
                                   "finish_reason" := JStr "length" ]}] ]} in
  let o := {| getenv := fun _ => None;
              arrival := 0; oversleep := 0; dispatch_lag := 0; latency := 1; record_lag := 0;
              answer := fun _ => Replied {| status_code := 200; text := "";
                                            decoded := Decodes (JObj reply) |};
              unicode_lower := ascii_lower |} in
  fst (proxy_handler o openrouter_request start_world)
  = (gemini_candidate (JStr "hello") (JStr "length"), 200%Z).
Proof.
  intros reply o.
  pose proof (chat_reply_translated o openrouter_request openrouter_body "openrouter"
           openrouter_config start_world (100 + 0 + 0)%Q
           (openai_call "https://openrouter.ai/api/v1" "abc" (cp_extra_headers openrouter_config)
              (chat_payload openrouter_body ∅
                 [JObj {[ "role" := JStr "user"; "content" := JStr "hi" ]}]))
           {| status_code := 200; text := ""; decoded := Decodes (JObj reply) |}
           reply
           {[ "message" := JObj {[ "content" := JStr "hello" ]};
              "finish_reason" := JStr "length" ]}
           {[ "content" := JStr "hello" ]}
           (openrouter_request_routed _) eq_refl) as Hthm.
  assert (Hsent : outbound (snd (proxy_handler o openrouter_request start_world))
                  = outbound start_world
                    ++ [((100 + 0 + 0)%Q,
                         openai_call "https://openrouter.ai/api/v1" "abc"
                           (cp_extra_headers openrouter_config)
                           (chat_payload openrouter_body ∅
                              [JObj {[ "role" := JStr "user"; "content" := JStr "hi" ]}]))])
    by (vm_compute; reflexivity).
  specialize (Hthm Hsent eq_refl eq_refl eq_refl).
  assert (Hfirst : first_choice reply
                   = Some {[ "message" := JObj {[ "content" := JStr "hello" ]};
                             "finish_reason" := JStr "length" ]})
    by (vm_compute; reflexivity).
  specialize (Hthm Hfirst).
  assert (Hmsg : default (JObj ∅)
                   (({[ "message" := JObj {[ "content" := JStr "hello" ]};
                        "finish_reason" := JStr "length" ]} : gmap string json) !! "message")
                 = JObj {[ "content" := JStr "hello" ]})
    by (vm_compute; reflexivity).
  specialize (Hthm Hmsg).
  vm_compute in Hthm. vm_compute. exact Hthm.
Defined.

(** ** The caller's key *)

(** X18.  The caller's key is the [Authorization] header with the text
    "Bearer " taken out: a header [Bearer <key>] gives [<key>], and a
    header in which "Bearer " does not occur (a bare key, another
    scheme, "bearer" in lower case) is taken whole as the key. *)
Theorem caller_key_of_header (req : request) (h : string) :
  headers req !! "Authorization" = Some h ->
  (forall k, h = "Bearer " +:+ k -> occurs_in "Bearer " k = false -> caller_key req = k) /\
  (occurs_in "Bearer " h = false -> caller_key req = h).
Proof.
  intros Hh. unfold caller_key, replace. rewrite Hh. cbn [default from_option id]. split.
  - intros k -> Hk. rewrite replace_leading by done. by rewrite replace_no_occurrence.
  - intros Hno. by rewrite replace_no_occurrence.
Qed.

Lemma caller_key_of_header_witness :
  (forall k, "Bearer abc" = "Bearer " +:+ k -> occurs_in "Bearer " k = false ->
             caller_key openrouter_request = k) /\
  (occurs_in "Bearer " "Bearer abc" = false -> caller_key openrouter_request = "Bearer abc").
Proof.
  apply (caller_key_of_header openrouter_request "Bearer abc"). reflexivity.
Defined.

(** ** Requests handled one after the other *)

Lemma gemini_times_app (s1 s2 : list (Q * post_call)) :
  gemini_times (s1 ++ s2) = gemini_times s1 ++ gemini_times s2.
Proof. unfold gemini_times. by rewrite filter_app, map_app. Qed.

Lemma gemini_times_gemini (t : Q) (c : post_call) (sent : list (Q * post_call)) :
  to_gemini c = true -> gemini_times ((t, c) :: sent) = t :: gemini_times sent.
Proof. intros Hc. unfold gemini_times. by rewrite filter_cons_True. Qed.

Lemma gemini_times_other (t : Q) (c : post_call) :
  to_gemini c = false -> gemini_times [(t, c)] = [].
Proof.
  intros Hc. unfold gemini_times. rewrite filter_cons_False; [done |].
  cbn [snd]. by rewrite Hc.
Qed.

Lemma spaced_cons (d t : Q) (ts : list Q) :
  (forall t', head ts = Some t' -> (t + d <= t')%Q) ->
  spaced d ts ->
  spaced d (t :: ts).
Proof. intros Hhead Hts. destruct ts as [| t' ts]; [done |]. split; [by apply Hhead | done]. Qed.

(** One request, under an upstream that answers without HTTP errors:
    either no Gemini call goes out and the limiter instant stays, or
    one goes out, at least [GEMINI_REQUEST_DELAY] after the recorded
    instant, and the instant recorded then is not before it. *)
Lemma limiter_step (o : oracle) (req : request) (w : world) :
  oracle_ok o ->
  answers_ok o ->
  let w' := snd (proxy_handler o req w) in
  (exists sent, outbound w' = outbound w ++ sent /\ gemini_times sent = [] /\
                last_gemini_request_time w' = last_gemini_request_time w) \/
  (exists t c, outbound w' = outbound w ++ [(t, c)] /\ to_gemini c = true /\
               (last_gemini_request_time w + GEMINI_REQUEST_DELAY <= t)%Q /\
               (t <= last_gemini_request_time w')%Q).
Proof.
  intros (Ha & Hs & Hd & Hl & Hr) Hanswers. cbv zeta.
  pose proof (after_limiter_clock o (arrived o w) Hs) as Hwait.
  cbn [arrived last_gemini_request_time] in Hwait.
  handler_cases o req w;
    try (match goal with
         | Hans : answer o ?c = _ |- _ =>
             destruct (Hanswers c) as (r' & Hans' & Herr'); congruence
         end);
    try (left; exists []; rewrite app_nil_r, ?after_limiter_outbound, ?after_limiter_last;
         done);
    try (left; eexists [_]; split; [reflexivity | split; [| done]];
         by apply gemini_times_other);
    right; do 2 eexists; (split; [reflexivity |]); (split; [reflexivity |]); split; lra.
Qed.

(** X19.  Requests handled one after the other, each under the lock
    from start to end, to whatever providers and with whatever bodies:
    when the upstream answers every call without an HTTP error, the
    Gemini calls that go out are at least [GEMINI_REQUEST_DELAY] apart,
    one after the other, and the first of them goes out at least that
    long after the instant recorded before. *)
Theorem serialized_gemini_calls_spaced (rs : list (oracle * request)) (w : world) :
  Forall (fun r => oracle_ok (fst r) /\ answers_ok (fst r)) rs ->
  exists sent,
    outbound (serve_all rs w) = outbound w ++ sent /\
    spaced GEMINI_REQUEST_DELAY (gemini_times sent) /\
    (forall t, head (gemini_times sent) = Some t ->
               (last_gemini_request_time w + GEMINI_REQUEST_DELAY <= t)%Q) /\
    (last_gemini_request_time w <= last_gemini_request_time (serve_all rs w))%Q.
Proof.
  intros Hall. revert w.
  induction Hall as [| [o req] rs [Hok Hanswers] _ IH]; intros w; cbn [serve_all].
  - exists []. rewrite app_nil_r. repeat split; [done | lra].
  - cbn [fst] in *.
    destruct (IH (snd (proxy_handler o req w))) as (sent' & Hsent' & Hspaced & Hhead & Hlast).
    destruct (limiter_step o req w Hok Hanswers)
      as [(sent & Hsent & Hnone & Hsame) | (t & c & Hsent & Hgem & Hwait & Hrec)].
    + exists (sent ++ sent'). rewrite Hsent', Hsent, gemini_times_app, Hnone, Hsame in *.
      rewrite <- app_assoc. cbn [app]. done.
    + exists ((t, c) :: sent'). rewrite Hsent', Hsent, (gemini_times_gemini t c sent' Hgem).
      rewrite <- app_assoc. cbn [app]. split; [done |]. split; [| split].
      * apply spaced_cons; [| done]. intros t' Ht'. specialize (Hhead t' Ht'). lra.
      * intros t0 [= <-]. done.
      * unfold GEMINI_REQUEST_DELAY in *. lra.
Qed.

Lemma serialized_gemini_calls_spaced_witness :
  let o := answering 200 "{}" (Decodes (JObj ∅)) in
  let rs := [(o, posted (JObj hi_body)); (o, openrouter_request);
             (o, posted (JObj pro_body))] in
  exists sent,
    outbound (serve_all rs start_world) = outbound start_world ++ sent /\
    spaced GEMINI_REQUEST_DELAY (gemini_times sent) /\
    (forall t, head (gemini_times sent) = Some t ->
               (last_gemini_request_time start_world + GEMINI_REQUEST_DELAY <= t)%Q) /\
    (last_gemini_request_time start_world
     <= last_gemini_request_time (serve_all rs start_world))%Q.
Proof.
  intros o rs.
  apply (serialized_gemini_calls_spaced rs start_world).
  repeat constructor; try apply answering_ok; try (cbn; lra);
    intros c; eexists; split; reflexivity.
Defined.

(** ** What the dispatcher sends *)

(** X20.  A request whose provider name, in lower case, is none of
    "llmost", "openrouter" and "gemini" is answered 400 with the message
    "Unsupported provider: " followed by the name in lower case;
    nothing is sent, the handler does not sleep and the limiter instant
    is not touched. *)
Theorem unknown_provider_is_answered_400
    (o : oracle) (req : request) (m : gmap string json) (p : string) (w : world) :
  body req = BodyJson (JObj m) ->
  m !! "provider" = Some (JStr p) ->
  lower o p <> "llmost" -> lower o p <> "openrouter" -> lower o p <> "gemini" ->
  proxy_handler o req w
  = ((error_body ("Unsupported provider: " +:+ lower o p), 400%Z), arrived o w).
Proof.
  intros Hbody Hp H1 H2 H3.
  apply (unsupported_provider_rejected o req w m (lower o p)).
  - apply (routed_intro o req m "provider" (JStr p) p); [done | done | by rewrite Hp].
  - unfold supported. tauto.
Qed.

Lemma unknown_provider_is_answered_400_witness :
  proxy_handler quiet_oracle (posted (JObj {[ "provider" := JStr "Unknown-LLM" ]})) start_world
  = ((error_body "Unsupported provider: unknown-llm", 400%Z),
     arrived quiet_oracle start_world).
Proof.
  apply (unknown_provider_is_answered_400 quiet_oracle
           (posted (JObj {[ "provider" := JStr "Unknown-LLM" ]})) {[ "provider" := JStr "Unknown-LLM" ]}
           "Unknown-LLM" start_world); (reflexivity || discriminate).
Defined.

(** X21.  Every outbound call has a timeout: a call to the Gemini
    endpoint has timeout 45 and no headers, any other call has timeout
    60 and the content type [application/json]. *)
Theorem every_call_has_a_timeout
    (o : oracle) (req : request) (w : world) (t : Q) (c : post_call) :
  outbound (snd (proxy_handler o req w)) = outbound w ++ [(t, c)] ->
  (to_gemini c = true /\ post_timeout c = 45%Z /\ post_headers c = ∅) \/
  (to_gemini c = false /\ post_timeout c = 60%Z /\
   post_headers c !! "Content-Type" = Some "application/json").
Proof.
  assert (Hct : forall provider cp k, chat_provider_of provider = Some cp ->
            openai_headers k (cp_extra_headers cp) !! "Content-Type" = Some "application/json").
  { intros provider cp k Hcp. unfold openai_headers.
    destruct (chat_provider_of_cases provider cp Hcp) as [[_ ->] | [_ ->]];
      by simplify_map_eq. }
  handler_cases o req w; intros Hsent;
    try (by apply sent_nothing_sent_one in Hsent);
    try (rewrite after_limiter_outbound in Hsent; by apply sent_nothing_sent_one in Hsent);
    apply sent_one_inj in Hsent; injection Hsent as _ <-;
    try (by left);
    right; (split; [done |]); (split; [done |]); by apply (Hct provider).
Qed.

Lemma every_call_has_a_timeout_witness :
  let c := openai_call "https://openrouter.ai/api/v1" "abc" (cp_extra_headers openrouter_config)
             (chat_payload openrouter_body ∅
                [JObj {[ "role" := JStr "user"; "content" := JStr "hi" ]}]) in
  (to_gemini c = true /\ post_timeout c = 45%Z /\ post_headers c = ∅) \/
  (to_gemini c = false /\ post_timeout c = 60%Z /\
   post_headers c !! "Content-Type" = Some "application/json").
Proof.
  intros c.
  apply (every_call_has_a_timeout quiet_oracle openrouter_request start_world (100 + 0 + 0)%Q c).
  vm_compute. reflexivity.
Defined.
